(** * ripple-keypairs: deterministic key derivation, key-pair objects and
      the sign / verify entry points, embedded from the JavaScript sources.

    Layout of the development:
    - [Bytes]      byte arrays (JS arrays of numbers) and big-endian coding;
    - [HashJs]     SHA-512 of the external package hash.js (FIPS 180-4);
    - [Sha512]     the repository's hash-chain helper class;
    - [Elliptic]   the parts of the external package elliptic that the
                   derivations call (secp256k1 points, ed25519 public keys),
                   and [Fast], the same operations on machine words;
    - [Secp256k1]  deriveScalar and deriveSecret of src/secp256k1.js;
    - [BN], [Utils]  the bn.js conversions and src/utils.js (bytesToHex,
                   hexToBytes, parseKey);
    - [EllipticSig]  signing and verification of elliptic, as an interface;
    - [Js]         JS values, objects as property tables, method calls that
                   return, throw or run out of fuel, and the memoising
                   wrapper [cached];
    - [KeyPair], [K256Class], [K256Ext], [Ed25519Ext]
                   the key-pair classes: K256Pair in its decorator revision
                   (src/secp256k1.js) and in its extendClass revision,
                   Ed25519Pair (src/ed25519.js);
    - [Index], [Api]  the entry points of src/index.js and src/api.js;
    - the properties, grouped by subject. *)

From Stdlib Require Import ZArith List Lia Bool String Ascii.
From stdpp Require Import base option list strings gmap.
From Bignums Require Import BigZ.BigZ.

Local Open Scope Z_scope.

(* ===================================================================== *)
(** ** Results of calls that may throw *)
(* ===================================================================== *)

(** A JS call either returns a value or throws; the string names the
    error. *)
Inductive result (A : Type) : Type :=
| Ok (a : A)
| Error (msg : string).
Arguments Ok {A} a.
Arguments Error {A} msg.

Definition rbind {A B} (r : result A) (k : A -> result B) : result B :=
  match r with
  | Ok a => k a
  | Error e => Error e
  end.

Notation "x <- r ;; k" := (rbind r (fun x => k))
  (at level 100, r at next level, right associativity).


(* ===================================================================== *)
(** ** Byte arrays *)
(* ===================================================================== *)

Module Bytes.

(** A JS byte array is an array of numbers; a well-formed one holds
    integers in [0, 255]. *)
Definition bytes := list Z.

Definition is_byte (b : Z) : Prop := 0 <= b < 256.
Definition wf (l : bytes) : Prop := Forall is_byte l.

(** Big-endian reading of a byte array, as bn.js does for [new BN(array)]. *)
Definition be_to_Z (l : bytes) : Z :=
  fold_left (fun acc b => acc * 256 + b) l 0.

(** The [n] low-order bytes of [x], most significant first
    (bn.js [toArray('be', n)] for [0 <= x < 256^n]). *)
Fixpoint Z_to_be (n : nat) (x : Z) : bytes :=
  match n with
  | O => []
  | S n' => Z.land (Z.shiftr x (8 * Z.of_nat n')) 255 :: Z_to_be n' x
  end.

(** JS [a.slice(0, n)] and [a.slice(n)] on arrays. *)
Definition slice_to (n : nat) (l : bytes) : bytes := firstn n l.
Definition slice_from (n : nat) (l : bytes) : bytes := skipn n l.

End Bytes.
Import Bytes.

(* ===================================================================== *)
(** ** hash.js: SHA-512 *)
(* ===================================================================== *)

Module HashJs.

Definition mask64 : Z := 0xffffffffffffffff.
Definition w64 (x : Z) : Z := Z.land x mask64.
Definition add64 (x y : Z) : Z := w64 (x + y).
Definition rotr (n x : Z) : Z :=
  Z.lor (Z.shiftr x n) (w64 (Z.shiftl x (64 - n))).

Definition ch (x y z : Z) : Z :=
  Z.lxor (Z.land x y) (Z.land (Z.lxor x mask64) z).
Definition maj (x y z : Z) : Z :=
  Z.lxor (Z.lxor (Z.land x y) (Z.land x z)) (Z.land y z).
Definition Sigma0 (x : Z) : Z :=
  Z.lxor (Z.lxor (rotr 28 x) (rotr 34 x)) (rotr 39 x).
Definition Sigma1 (x : Z) : Z :=
  Z.lxor (Z.lxor (rotr 14 x) (rotr 18 x)) (rotr 41 x).
Definition sigma0 (x : Z) : Z :=
  Z.lxor (Z.lxor (rotr 1 x) (rotr 8 x)) (Z.shiftr x 7).
Definition sigma1 (x : Z) : Z :=
  Z.lxor (Z.lxor (rotr 19 x) (rotr 61 x)) (Z.shiftr x 6).

Definition sha512_K : list Z :=
  [0x428a2f98d728ae22; 0x7137449123ef65cd; 0xb5c0fbcfec4d3b2f; 0xe9b5dba58189dbbc;
   0x3956c25bf348b538; 0x59f111f1b605d019; 0x923f82a4af194f9b; 0xab1c5ed5da6d8118;
   0xd807aa98a3030242; 0x12835b0145706fbe; 0x243185be4ee4b28c; 0x550c7dc3d5ffb4e2;
   0x72be5d74f27b896f; 0x80deb1fe3b1696b1; 0x9bdc06a725c71235; 0xc19bf174cf692694;
   0xe49b69c19ef14ad2; 0xefbe4786384f25e3; 0x0fc19dc68b8cd5b5; 0x240ca1cc77ac9c65;
   0x2de92c6f592b0275; 0x4a7484aa6ea6e483; 0x5cb0a9dcbd41fbd4; 0x76f988da831153b5;
   0x983e5152ee66dfab; 0xa831c66d2db43210; 0xb00327c898fb213f; 0xbf597fc7beef0ee4;
   0xc6e00bf33da88fc2; 0xd5a79147930aa725; 0x06ca6351e003826f; 0x142929670a0e6e70;
   0x27b70a8546d22ffc; 0x2e1b21385c26c926; 0x4d2c6dfc5ac42aed; 0x53380d139d95b3df;
   0x650a73548baf63de; 0x766a0abb3c77b2a8; 0x81c2c92e47edaee6; 0x92722c851482353b;
   0xa2bfe8a14cf10364; 0xa81a664bbc423001; 0xc24b8b70d0f89791; 0xc76c51a30654be30;
   0xd192e819d6ef5218; 0xd69906245565a910; 0xf40e35855771202a; 0x106aa07032bbd1b8;
   0x19a4c116b8d2d0c8; 0x1e376c085141ab53; 0x2748774cdf8eeb99; 0x34b0bcb5e19b48a8;
   0x391c0cb3c5c95a63; 0x4ed8aa4ae3418acb; 0x5b9cca4f7763e373; 0x682e6ff3d6b2b8a3;
   0x748f82ee5defb2fc; 0x78a5636f43172f60; 0x84c87814a1f0ab72; 0x8cc702081a6439ec;
   0x90befffa23631e28; 0xa4506cebde82bde9; 0xbef9a3f7b2c67915; 0xc67178f2e372532b;
   0xca273eceea26619c; 0xd186b8c721c0c207; 0xeada7dd6cde0eb1e; 0xf57d4f7fee6ed178;
   0x06f067aa72176fba; 0x0a637dc5a2c898a6; 0x113f9804bef90dae; 0x1b710b35131c471b;
   0x28db77f523047d84; 0x32caab7b40c72493; 0x3c9ebe0a15c9bebc; 0x431d67c49c100d4c;
   0x4cc5d4becb3e42b6; 0x597f299cfc657e2a; 0x5fcb6fab3ad6faec; 0x6c44198c4a475817].

(** The eight working variables / chaining values. *)
Record state := mkState {
  sa : Z; sb : Z; sc : Z; sd : Z; se : Z; sf : Z; sg : Z; sh : Z }.

Definition sha512_init : state :=
  mkState 0x6a09e667f3bcc908 0xbb67ae8584caa73b 0x3c6ef372fe94f82b
          0xa54ff53a5f1d36f1 0x510e527fade682d1 0x9b05688c2b3e6c1f
          0x1f83d9abfb41bd6b 0x5be0cd19137e2179.

Definition round (k w : Z) (s : state) : state :=
  let t1 := w64 (sh s + Sigma1 (se s) + ch (se s) (sf s) (sg s) + k + w) in
  let t2 := w64 (Sigma0 (sa s) + maj (sa s) (sb s) (sc s)) in
  mkState (add64 t1 t2) (sa s) (sb s) (sc s)
          (add64 (sd s) t1) (se s) (sf s) (sg s).

(** [w] is the sliding window W[t .. t+15] of the message schedule. *)
Fixpoint rounds (ks : list Z) (w : list Z) (s : state) : state :=
  match ks with
  | [] => s
  | k :: ks' =>
      match w with
      | [] => s
      | w0 :: w' =>
          let wnew := w64 (sigma1 (nth 13 w' 0) + nth 8 w' 0
                           + sigma0 (nth 0 w' 0) + w0) in
          rounds ks' (w' ++ [wnew]) (round k w0 s)
      end
  end.

Definition compress (s : state) (block : list Z) : state :=
  let r := rounds sha512_K block s in
  mkState (add64 (sa s) (sa r)) (add64 (sb s) (sb r))
          (add64 (sc s) (sc r)) (add64 (sd s) (sd r))
          (add64 (se s) (se r)) (add64 (sf s) (sf r))
          (add64 (sg s) (sg r)) (add64 (sh s) (sh r)).

(** Cut a byte array into groups of [n] bytes ([fuel] bounds the number
    of groups; callers pass the array's length). *)
Fixpoint chunks (fuel n : nat) (l : bytes) : list bytes :=
  match fuel with
  | O => []
  | S fuel' =>
      match l with
      | [] => []
      | _ => firstn n l :: chunks fuel' n (skipn n l)
      end
  end.

Definition pad (msg : bytes) : bytes :=
  let len := Z.of_nat (length msg) in
  let k := (128 - (len + 17) mod 128) mod 128 in
  msg ++ [128] ++ repeat 0 (Z.to_nat k) ++ Z_to_be 16 (8 * len).

Definition block_words (block : bytes) : list Z :=
  map be_to_Z (chunks 16 8 block).

Definition digest_bytes (s : state) : bytes :=
  Z_to_be 8 (sa s) ++ Z_to_be 8 (sb s) ++ Z_to_be 8 (sc s) ++
  Z_to_be 8 (sd s) ++ Z_to_be 8 (se s) ++ Z_to_be 8 (sf s) ++
  Z_to_be 8 (sg s) ++ Z_to_be 8 (sh s).

(** [hashjs.sha512().update(msg).digest()]. *)
Definition sha512 (msg : bytes) : bytes :=
  let p := pad msg in
  digest_bytes
    (fold_left (fun s b => compress s (block_words b))
               (chunks (length p) 128 p) sha512_init).

End HashJs.

(* ===================================================================== *)
(** ** The repository's hash-chain helper (sha512.js) *)
(* ===================================================================== *)

Module Sha512.

(** Modelled from the spec: the class [Sha512] of [./sha512], required by
    utils.js and used by every derivation, is not among the sources.
    Section 4.1 of the specification gives its contract: repeated appends
    of byte sequences, a convenience append of a big-endian 32-bit
    integer, finalisation to the 64-byte digest, an accessor for the first
    32 bytes of the digest and one for that prefix read as a big integer.
    The hasher is represented by the bytes appended so far. *)
Definition hasher := bytes.

(** Modelled from the spec: [new Sha512()], a fresh accumulator. *)
Definition new : hasher := [].

(** Modelled from the spec: [add(bytes)], the append of a byte sequence. *)
Definition add (h : hasher) (b : bytes) : hasher := h ++ b.

(** The four bytes of a 32-bit integer, most significant first
    ([i >>> 24 & 0xFF] ... [i & 0xFF]). *)
Definition u32be (i : Z) : bytes :=
  [Z.land (Z.shiftr i 24) 255; Z.land (Z.shiftr i 16) 255;
   Z.land (Z.shiftr i 8) 255; Z.land i 255].

(** Modelled from the spec: [addU32(i)], the append of a big-endian
    32-bit integer. *)
Definition addU32 (h : hasher) (i : Z) : hasher := add h (u32be i).

(** Modelled from the spec: [finish()], the 64-byte digest of all that
    was appended. *)
Definition finish (h : hasher) : bytes := HashJs.sha512 h.

(** Modelled from the spec: [first256()], the first 32 bytes of the
    digest. *)
Definition first256 (h : hasher) : bytes := slice_to 32 (finish h).

(** Modelled from the spec: [first256BN()], these 32 bytes as a
    big-endian unsigned big number. *)
Definition first256BN (h : hasher) : Z := be_to_Z (first256 h).

End Sha512.

(* ===================================================================== *)
(** ** elliptic: the curve operations used by the derivations *)
(* ===================================================================== *)

Module Elliptic.

(** Square-and-multiply modular power, for field inverses. *)
Fixpoint powmod_pos (m b : Z) (e : positive) : Z :=
  match e with
  | xH => b mod m
  | xO e' => let r := powmod_pos m b e' in (r * r) mod m
  | xI e' => let r := powmod_pos m b e' in (((r * r) mod m) * b) mod m
  end.

Definition powmod (m b e : Z) : Z :=
  match e with
  | Zpos e' => powmod_pos m b e'
  | _ => 1 mod m
  end.

(** *** secp256k1 ([elliptic.ec('secp256k1')]) *)

Definition p : Z := 2 ^ 256 - 2 ^ 32 - 977.
(** [secp256k1.curve.n], the order of the base point. *)
Definition n : Z :=
  0xFFFFFFFFFFFFFFFFFFFFFFFFFFFFFFFEBAAEDCE6AF48A03BBFD25E8CD0364141.
Definition Gx : Z :=
  0x79BE667EF9DCBBAC55A06295CE870B07029BFCDB2DCE28D959F2815B16F81798.
Definition Gy : Z :=
  0x483ADA7726A3C4655DA4FBFC0E1108A8FD17B448A68554199C47D08FFB10D4B8.

(** A curve point in affine form; [Inf] is the point at infinity. *)
Inductive point := Inf | Aff (x y : Z).

Definition g : point := Aff Gx Gy.

(** Jacobian coordinates (X : Y : Z), Z = 0 at infinity. *)
Record jac := mkJac { jX : Z; jY : Z; jZ : Z }.

Definition fp (x : Z) : Z := x mod p.

Definition jdouble (P : jac) : jac :=
  let A := fp (jX P * jX P) in
  let B := fp (jY P * jY P) in
  let C := fp (B * B) in
  let t := fp (jX P + B) in
  let D := fp (2 * (fp (t * t) - A - C)) in
  let E := fp (3 * A) in
  let F := fp (E * E) in
  let X3 := fp (F - 2 * D) in
  let Y3 := fp (E * (D - X3) - 8 * C) in
  let Z3 := fp (2 * jY P * jZ P) in
  mkJac X3 Y3 Z3.

(** Mixed addition of a Jacobian point and the affine point (x2, y2). *)
Definition jadd (P : jac) (x2 y2 : Z) : jac :=
  if jZ P =? 0 then mkJac x2 y2 1 else
  let Z1Z1 := fp (jZ P * jZ P) in
  let U2 := fp (x2 * Z1Z1) in
  let S2 := fp (fp (y2 * jZ P) * Z1Z1) in
  let H := fp (U2 - jX P) in
  let R := fp (S2 - jY P) in
  if H =? 0 then
    (if R =? 0 then jdouble P else mkJac 1 1 0)
  else
    let HH := fp (H * H) in
    let HHH := fp (H * HH) in
    let V := fp (jX P * HH) in
    let X3 := fp (R * R - HHH - 2 * V) in
    let Y3 := fp (R * (V - X3) - jY P * HHH) in
    let Z3 := fp (jZ P * H) in
    mkJac X3 Y3 Z3.

Fixpoint jmul_pos (k : positive) (x y : Z) : jac :=
  match k with
  | xH => mkJac x y 1
  | xO k' => jdouble (jmul_pos k' x y)
  | xI k' => jadd (jdouble (jmul_pos k' x y)) x y
  end.

Definition to_affine (P : jac) : point :=
  if jZ P =? 0 then Inf else
  let zi := powmod p (jZ P) (p - 2) in
  let zi2 := fp (zi * zi) in
  Aff (fp (jX P * zi2)) (fp (jY P * fp (zi2 * zi))).

(** [P.mul(k)] for a non-negative big number [k]. *)
Definition mul (P : point) (k : Z) : point :=
  match P, k with
  | Aff x y, Zpos k' => to_affine (jmul_pos k' x y)
  | _, _ => Inf
  end.

(** [P.encodeCompressed()]: 02 or 03 by the parity of y, then the 32
    big-endian bytes of x. Reading the coordinates of the point at
    infinity raises a TypeError. *)
Definition encodeCompressed (P : point) : result bytes :=
  match P with
  | Inf => Error "TypeError"
  | Aff x y => Ok ((if Z.even y then 2 else 3) :: Z_to_be 32 x)
  end.

(** *** ed25519 ([elliptic.eddsa('ed25519')]) *)

Definition q : Z := 2 ^ 255 - 19.
Definition ed_d : Z :=
  37095705934669439343138083508754565189542113879843219016388785533085940283555.
Definition ed_Bx : Z :=
  15112221349535400772501151409588531511454012693041857206046113283949847762202.
Definition ed_By : Z :=
  46316835694926478169428394003475163141307993866256225615783033603165251855960.

Definition fq (x : Z) : Z := x mod q.

(** Extended twisted-Edwards coordinates (X : Y : Z : T), T = XY/Z. *)
Record ext := mkExt { eX : Z; eY : Z; eZ : Z; eT : Z }.

Definition ed_zero : ext := mkExt 0 1 1 0.
Definition ed_base : ext := mkExt ed_Bx ed_By 1 (fq (ed_Bx * ed_By)).

(** The unified addition law (complete on this curve). *)
Definition ed_add (P Q : ext) : ext :=
  let A := fq ((eY P - eX P) * (eY Q - eX Q)) in
  let B := fq ((eY P + eX P) * (eY Q + eX Q)) in
  let C := fq (fq (eT P * (2 * ed_d)) * eT Q) in
  let D := fq (2 * eZ P * eZ Q) in
  let E := B - A in
  let F := D - C in
  let G := D + C in
  let H := B + A in
  mkExt (fq (E * F)) (fq (G * H)) (fq (F * G)) (fq (E * H)).

Fixpoint ed_mul_pos (k : positive) (P : ext) : ext :=
  match k with
  | xH => P
  | xO k' => let r := ed_mul_pos k' P in ed_add r r
  | xI k' => let r := ed_mul_pos k' P in ed_add (ed_add r r) P
  end.

Definition ed_mul (P : ext) (k : Z) : ext :=
  match k with
  | Zpos k' => ed_mul_pos k' P
  | _ => ed_zero
  end.

(** Little-endian coding of integers, as the EdDSA encodings use. *)
Definition Z_to_le (len : nat) (x : Z) : bytes := rev (Z_to_be len x).
Definition le_to_Z (l : bytes) : Z := be_to_Z (rev l).

(** The affine coordinates (x, y) of a point. *)
Definition ed_affine (P : ext) : Z * Z :=
  let zi := powmod q (eZ P) (q - 2) in
  (fq (eX P * zi), fq (eY P * zi)).

(** [eddsa.encodePoint]: the 32 little-endian bytes of y with the parity
    of x in the top bit. *)
Definition ed_encodePoint (P : ext) : bytes :=
  let '(x, y) := ed_affine P in
  Z_to_le 32 (Z.lor y (Z.shiftl (if Z.odd x then 1 else 0) 255)).

(** The private scalar of a key made by [keyFromSecret(secret)]: the
    first half of the hash of the secret, clamped. *)
Definition ed_privScalar (secret : bytes) : Z :=
  let a := firstn 32 (HashJs.sha512 secret) in
  let a0 := Z.land (nth 0 a 0) 248 in
  let a31 := Z.lor (Z.land (nth 31 a 0) 127) 64 in
  le_to_Z (a0 :: firstn 30 (skipn 1 a) ++ [a31]).

(** [eddsa.keyFromSecret(secret).pubBytes()]. *)
Definition ed_pubBytes (secret : bytes) : bytes :=
  ed_encodePoint (ed_mul ed_base (ed_privScalar secret)).

End Elliptic.

(* ===================================================================== *)
(** ** The curve operations on machine-word big numbers *)
(* ===================================================================== *)

(** The same formulas as in [Elliptic], over the big integers of the
    Bignums library: they run fast enough to evaluate a scalar
    multiplication inside a proof. The lemmas [Fast_*] below show that they
    compute the values of the definitions over [Z]. *)
Module Fast.

Local Open Scope bigZ_scope.

Definition Zof (x : bigZ) : Z := BigZ.to_Z x.

Fixpoint powmod_pos (m b : bigZ) (e : positive) : bigZ :=
  match e with
  | xH => b mod m
  | xO e' => let r := powmod_pos m b e' in (r * r) mod m
  | xI e' => let r := powmod_pos m b e' in (((r * r) mod m) * b) mod m
  end.

Definition powmod (m b : bigZ) (e : Z) : bigZ :=
  match e with
  | Zpos e' => powmod_pos m b e'
  | _ => 1 mod m
  end.

(** *** secp256k1 *)

Definition p : bigZ := BigZ.of_Z Elliptic.p.
Definition fp (x : bigZ) : bigZ := x mod p.

Record jac := mkJac { jX : bigZ; jY : bigZ; jZ : bigZ }.

Definition jac_of (P : jac) : Elliptic.jac :=
  Elliptic.mkJac (Zof (jX P)) (Zof (jY P)) (Zof (jZ P)).

Definition jdouble (P : jac) : jac :=
  let A := fp (jX P * jX P) in
  let B := fp (jY P * jY P) in
  let C := fp (B * B) in
  let t := fp (jX P + B) in
  let D := fp (2 * (fp (t * t) - A - C)) in
  let E := fp (3 * A) in
  let F := fp (E * E) in
  let X3 := fp (F - 2 * D) in
  let Y3 := fp (E * (D - X3) - 8 * C) in
  let Z3 := fp (2 * jY P * jZ P) in
  mkJac X3 Y3 Z3.

Definition jadd (P : jac) (x2 y2 : bigZ) : jac :=
  if jZ P =? 0 then mkJac x2 y2 1 else
  let Z1Z1 := fp (jZ P * jZ P) in
  let U2 := fp (x2 * Z1Z1) in
  let S2 := fp (fp (y2 * jZ P) * Z1Z1) in
  let H := fp (U2 - jX P) in
  let R := fp (S2 - jY P) in
  if H =? 0 then
    (if R =? 0 then jdouble P else mkJac 1 1 0)
  else
    let HH := fp (H * H) in
    let HHH := fp (H * HH) in
    let V := fp (jX P * HH) in
    let X3 := fp (R * R - HHH - 2 * V) in
    let Y3 := fp (R * (V - X3) - jY P * HHH) in
    let Z3 := fp (jZ P * H) in
    mkJac X3 Y3 Z3.

Fixpoint jmul_pos (k : positive) (x y : bigZ) : jac :=
  match k with
  | xH => mkJac x y 1
  | xO k' => jdouble (jmul_pos k' x y)
  | xI k' => jadd (jdouble (jmul_pos k' x y)) x y
  end.

Definition to_affine (P : jac) : Elliptic.point :=
  if jZ P =? 0 then Elliptic.Inf else
  let zi := powmod p (jZ P) (Elliptic.p - 2) in
  let zi2 := fp (zi * zi) in
  Elliptic.Aff (Zof (fp (jX P * zi2))) (Zof (fp (jY P * fp (zi2 * zi)))).

(** [g.mul(k)] *)
Definition g_mul (k : positive) : Elliptic.point :=
  to_affine (jmul_pos k (BigZ.of_Z Elliptic.Gx) (BigZ.of_Z Elliptic.Gy)).

(** *** ed25519 *)

Definition q : bigZ := BigZ.of_Z Elliptic.q.
Definition fq (x : bigZ) : bigZ := x mod q.
Definition ed_d : bigZ := BigZ.of_Z Elliptic.ed_d.

Record ext := mkExt { eX : bigZ; eY : bigZ; eZ : bigZ; eT : bigZ }.

Definition ext_of (P : ext) : Elliptic.ext :=
  Elliptic.mkExt (Zof (eX P)) (Zof (eY P)) (Zof (eZ P)) (Zof (eT P)).

Definition ed_base : ext :=
  mkExt (BigZ.of_Z Elliptic.ed_Bx) (BigZ.of_Z Elliptic.ed_By) 1
        (fq (BigZ.of_Z Elliptic.ed_Bx * BigZ.of_Z Elliptic.ed_By)).

Definition ed_add (P Q : ext) : ext :=
  let A := fq ((eY P - eX P) * (eY Q - eX Q)) in
  let B := fq ((eY P + eX P) * (eY Q + eX Q)) in
  let C := fq (fq (eT P * (2 * ed_d)) * eT Q) in
  let D := fq (2 * eZ P * eZ Q) in
  let E := B - A in
  let F := D - C in
  let G := D + C in
  let H := B + A in
  mkExt (fq (E * F)) (fq (G * H)) (fq (F * G)) (fq (E * H)).

Fixpoint ed_mul_pos (k : positive) (P : ext) : ext :=
  match k with
  | xH => P
  | xO k' => let r := ed_mul_pos k' P in ed_add r r
  | xI k' => let r := ed_mul_pos k' P in ed_add (ed_add r r) P
  end.

Definition ed_affine (P : ext) : Z * Z :=
  let zi := powmod q (eZ P) (Elliptic.q - 2) in
  (Zof (fq (eX P * zi)), Zof (fq (eY P * zi))).

End Fast.

(* ===================================================================== *)
(** ** src/secp256k1.js: scalar derivation *)
(* ===================================================================== *)

Module Secp256k1.

(** The 256-bit number hashed from [bytes], the optional discriminator
    and the counter [i]: the body of the loop of [deriveScalar] up to its
    range test. *)
Definition candidate (bytes0 : bytes) (discrim : option Z) (i : Z) : Z :=
  let hasher := Sha512.add Sha512.new bytes0 in
  let hasher :=
    match discrim with
    | Some d => Sha512.addU32 hasher d
    | None => hasher
    end in
  let hasher := Sha512.addU32 hasher i in
  Sha512.first256BN hasher.

(** [key.cmpn(0) > 0 && key.cmp(order) < 0] *)
Definition in_range (key : Z) : bool := (0 <? key) && (key <? Elliptic.n).

(** One iteration: [Some key] when the loop returns at counter [i]. *)
Definition attempt (bytes0 : bytes) (discrim : option Z) (i : Z) : option Z :=
  let key := candidate bytes0 discrim i in
  if in_range key then Some key else None.

(** The iterations [i = lo, lo + 1, ..., lo + 2^k - 1] in ascending
    order, stopping at the first one that returns. The range is halved
    so that the recursion is structural and runs no further than the
    loop does. *)
Fixpoint scan (bytes0 : bytes) (discrim : option Z) (k : nat) (lo : Z)
  : option Z :=
  match k with
  | O => attempt bytes0 discrim lo
  | S k' =>
      match scan bytes0 discrim k' lo with
      | Some key => Some key
      | None => scan bytes0 discrim k' (lo + 2 ^ Z.of_nat k')
      end
  end.

(** The loop as it is written: a counter [i] and the number [n] of
    iterations still to run. It is the reference [scan] is compared
    with (lemma [scan_loop]); [deriveScalar] would need 2^32 in unary to
    be defined by it. *)
Fixpoint loop (bytes0 : bytes) (discrim : option Z) (n : nat) (i : Z)
  : option Z :=
  match n with
  | O => None
  | S n' =>
      match attempt bytes0 discrim i with
      | Some key => Some key
      | None => loop bytes0 discrim n' (i + 1)
      end
  end.

(** [for (let i = 0; i <= 0xFFFFFFFF; i++) {...}] and the throw after it. *)
Definition deriveScalar (bytes0 : bytes) (discrim : option Z) : result Z :=
  match scan bytes0 discrim 32 0 with
  | Some key => Ok key
  | None => Error "impossible unicorn ;)"
  end.

(** The options object of [deriveSecret]; an absent field is undefined. *)
Record opts := mkOpts { validator : option bool; accountIndex : option Z }.

Definition no_opts : opts := mkOpts None None.

(** JS truthiness of [opts.validator]. *)
Definition is_root (o : opts) : bool :=
  match validator o with Some b => b | None => false end.

(** [opts.accountIndex || 0] *)
Definition account_index (o : opts) : Z :=
  match accountIndex o with
  | Some i => if i =? 0 then 0 else i
  | None => 0
  end.

Definition deriveSecret (seed : bytes) (o : opts) : result Z :=
  let root := is_root o in
  let order := Elliptic.n in
  privateGen <- deriveScalar seed None;;
  if root then Ok privateGen else
  let publicGen := Elliptic.mul Elliptic.g privateGen in
  let accountIndex := account_index o in
  encoded <- Elliptic.encodeCompressed publicGen;;
  offset <- deriveScalar encoded (Some accountIndex);;
  Ok ((offset + privateGen) mod order).

End Secp256k1.

(* ===================================================================== *)
(** ** bn.js: the conversions the sources call *)
(* ===================================================================== *)

Module BN.

(** The digit of a value in [0, 15], in lower case as [toString(16)]
    writes it. *)
Definition hex_char (d : Z) : ascii :=
  ascii_of_nat (Z.to_nat (if d <? 10 then 48 + d else 87 + d)).

(** [w] hex digits of [x], most significant first. *)
Fixpoint hex_digits (w : nat) (x : Z) : string :=
  match w with
  | O => EmptyString
  | S w' =>
      String (hex_char (Z.land (Z.shiftr x (4 * Z.of_nat w')) 15))
             (hex_digits w' x)
  end.

(** The number of hex digits of a non-negative number. *)
Definition hex_len (x : Z) : nat :=
  if x =? 0 then 1%nat else Z.to_nat (Z.log2 x / 4 + 1).

(** [x.toString(16)] for [x >= 0]. *)
Definition toString16 (x : Z) : string := hex_digits (hex_len x) x.

Fixpoint zeros (k : nat) : string :=
  match k with
  | O => EmptyString
  | S k' => String "0" (zeros k')
  end.

(** [x.toString(16, padding)]: zeros are put in front until the length
    is a multiple of [padding]. *)
Definition toString16_padded (padding : nat) (x : Z) : string :=
  let out := toString16 x in
  let r := (String.length out mod padding)%nat in
  (zeros (if (r =? 0)%nat then 0 else padding - r) ++ out)%string.

Definition upper_char (c : ascii) : ascii :=
  let k := nat_of_ascii c in
  if ((97 <=? k) && (k <=? 122))%nat then ascii_of_nat (k - 32) else c.

(** [s.toUpperCase()] on ASCII text. *)
Fixpoint toUpperCase (s : string) : string :=
  match s with
  | EmptyString => EmptyString
  | String c s' => String (upper_char c) (toUpperCase s')
  end.

Definition hex_value (c : ascii) : option Z :=
  let k := Z.of_nat (nat_of_ascii c) in
  if (48 <=? k) && (k <=? 57) then Some (k - 48)
  else if (65 <=? k) && (k <=? 70) then Some (k - 55)
  else if (97 <=? k) && (k <=? 102) then Some (k - 87)
  else None.

Fixpoint parse_hex (acc : Z) (s : string) : option Z :=
  match s with
  | EmptyString => Some acc
  | String c s' =>
      match hex_value c with
      | Some d => parse_hex (acc * 16 + d) s'
      | None => None
      end
  end.

(** [new BN(s, 16)] for a string of hex digits; other characters are
    outside what the sources pass and are rejected. *)
Definition of_hex (s : string) : result Z :=
  match parse_hex 0 s with
  | Some x => Ok x
  | None => Error "Invalid character"
  end.

(** [x.byteLength()] *)
Definition byteLength (x : Z) : nat :=
  if x =? 0 then 0%nat else Z.to_nat (Z.log2 x / 8 + 1).

(** [x.toArray('be', length)]: [length || Math.max(1, byteLength)]
    bytes, and an assertion that the number fits. *)
Definition toArray (x : Z) (length : nat) : result bytes :=
  let reqLength :=
    if (length =? 0)%nat then Nat.max 1 (byteLength x) else length in
  if (byteLength x <=? reqLength)%nat then Ok (Z_to_be reqLength x)
  else Error "byte array longer than desired length".

End BN.

(* ===================================================================== *)
(** ** src/utils.js *)
(* ===================================================================== *)

(** [KeyType] of src/keypair.js. *)
Inductive KeyType := secp256k1 | ed25519.

Module Utils.

(** [bytesToHex(a)]: two upper-case hex digits per byte. *)
Definition byteToHex (byteValue : Z) : string :=
  let hex := BN.toUpperCase (BN.toString16 byteValue) in
  if (1 <? String.length hex)%nat then hex else String "0" hex.

Fixpoint bytesToHex (a : bytes) : string :=
  match a with
  | [] => EmptyString
  | b :: a' => (byteToHex b ++ bytesToHex a')%string
  end.

(** [hexToBytes(a)] of the revision of utils that src/api.js uses:
    [assert(a.length % 2 === 0); new BN(a, 16).toArray(null, a.length / 2)] *)
Definition hexToBytes (a : string) : result bytes :=
  if negb (String.length a mod 2 =? 0)%nat then Error "AssertionError" else
  x <- BN.of_hex a;;
  BN.toArray x (String.length a / 2).

(** The test of [parseKey] and of [getAlgorithmFromKey]:
    [bytes.length === 33 && bytes[0] === 0xED ? 'ed25519' : 'secp256k1'] *)
Definition key_type_of (b : bytes) : KeyType :=
  if (length b =? 33)%nat && (nth 0 b (-1) =? 0xED) then ed25519
  else secp256k1.

(** [parseKey(key)] for a key given as a byte array, which
    [parsePublicKey] hands back as it is. *)
Definition parseKey (key : bytes) : KeyType * bytes := (key_type_of key, key).

(** [seedFromPhrase(phrase)], the phrase given by its bytes. *)
Definition seedFromPhrase (phrase : bytes) : bytes :=
  slice_to 16 (HashJs.sha512 phrase).

End Utils.

(* ===================================================================== *)
(** ** elliptic: signing and verification, taken as an interface *)
(* ===================================================================== *)

(** A signature handed to [key.verify]: a byte array, or a hex string
    that elliptic decodes itself (src/api.js passes the string on). *)
Inductive sigarg := SigBytes (b : bytes) | SigHex (s : string).

(** The signature operations of the curve library are consumed as they
    are; each may throw.
    - [ec_keyFromPublic b]: the point decoded by [secp256k1.keyFromPublic(b)];
    - [ecdsa_sign d h]: [key.sign(h, {canonical: true}).toDER()] for the
      key of private scalar [d];
    - [ecdsa_verify P h s]: [key.verify(h, s)] for the key of public
      point [P];
    - [eddsa_sign secret m]: [keyFromSecret(secret).sign(m).toBytes()];
    - [eddsa_verify pub m s]: [key.verify(m, s)] for the key whose
      public bytes are [pub]. *)
Class EllipticSig := {
  ec_keyFromPublic : bytes -> result Elliptic.point;
  ecdsa_sign : Z -> bytes -> result bytes;
  ecdsa_verify : Elliptic.point -> bytes -> sigarg -> result bool;
  eddsa_sign : bytes -> bytes -> result bytes;
  eddsa_verify : bytes -> bytes -> bytes -> result bool
}.

(** What the sources rely on from these operations: a signature made
    with a private scalar verifies under the public point [g.mul(d)],
    also after that point went through its compressed encoding, and an
    EdDSA signature verifies under the public bytes of its secret. *)
Definition library_contract (lib : EllipticSig) : Prop :=
  (forall d h s,
     0 < d < Elliptic.n ->
     ecdsa_sign d h = Ok s ->
     ecdsa_verify (Elliptic.mul Elliptic.g d) h (SigBytes s) = Ok true) /\
  (forall d h s b,
     0 < d < Elliptic.n ->
     ecdsa_sign d h = Ok s ->
     Elliptic.encodeCompressed (Elliptic.mul Elliptic.g d) = Ok b ->
     exists P, ec_keyFromPublic b = Ok P /\
               ecdsa_verify P h (SigBytes s) = Ok true) /\
  (forall secret m s,
     eddsa_sign secret m = Ok s ->
     eddsa_verify (Elliptic.ed_pubBytes secret) m s = Ok true).

(** A stand-in for the library, whose signature of a message is the
    message itself: enough to run the code of the key pairs on concrete
    inputs, and to see that the contract can be met. *)
Definition echo_lib : EllipticSig := {|
  ec_keyFromPublic := fun _ => Ok Elliptic.Inf;
  ecdsa_sign := fun _ h => Ok h;
  ecdsa_verify := fun _ h s =>
    Ok (match s with
        | SigBytes b => bool_decide (b = h)
        | SigHex _ => false
        end);
  eddsa_sign := fun _ m => Ok m;
  eddsa_verify := fun _ m s =>
    Ok (bool_decide (s = m))
|}.

(* ===================================================================== *)
(** ** JS values, objects and method calls *)
(* ===================================================================== *)

Module Js.

(** Key objects of elliptic: an ECDSA key holds a private scalar or a
    public point, an EdDSA key a secret or the public bytes. *)
Inductive eckey := EcPrivate (d : Z) | EcPublic (P : Elliptic.point).
Inductive edkey := EdSecret (secret : bytes) | EdPublic (pub : bytes).

Inductive val :=
| VUndef
| VBool (b : bool)
| VNum (z : Z)
| VStr (s : string)
| VArr (l : bytes)
| VBN (z : Z)
| VEcKey (k : eckey)
| VEdKey (k : edkey).

Definition truthy (v : val) : bool :=
  match v with
  | VUndef => false
  | VBool b => b
  | VNum z => negb (z =? 0)
  | VStr s => negb (String.eqb s "")
  | _ => true
  end.

(** [a || b] *)
Definition or_else (a b : val) : val := if truthy a then a else b.

(** An object is its property table; reading a property that was never
    written gives undefined. *)
Abbreviation obj := (gmap string val).

Definition getprop (o : obj) (k : string) : val := default VUndef (o !! k).
Definition setprop (o : obj) (k : string) (v : val) : obj := <[k := v]> o.

(** The outcome of a method call on [this]: it returns, it throws, or
    the call is still going on when the fuel (the depth of nested calls
    allowed) is used up. *)
Inductive outcome (A : Type) : Type :=
| Ret (a : A) (this : obj)
| Throw (e : string) (this : obj)
| OutOfFuel.
Arguments Ret {A} a this.
Arguments Throw {A} e this.
Arguments OutOfFuel {A}.

Definition M (A : Type) : Type := obj -> outcome A.

Definition ret {A} (a : A) : M A := fun this => Ret a this.
Definition throw {A} (e : string) : M A := fun this => Throw e this.
Definition out_of_fuel {A} : M A := fun _ => OutOfFuel.

Definition bind {A B} (m : M A) (k : A -> M B) : M B :=
  fun this =>
    match m this with
    | Ret a this' => k a this'
    | Throw e this' => Throw e this'
    | OutOfFuel => OutOfFuel
    end.

Notation "x <~ m ;; k" := (bind m (fun x => k))
  (at level 100, m at next level, right associativity).

Definition lift {A} (r : result A) : M A :=
  match r with
  | Ok a => ret a
  | Error e => throw e
  end.

(** [this[k]] *)
Definition get (k : string) : M val := fun this => Ret (getprop this k) this.

(** [try { m } catch (e) { handler }] *)
Definition try_catch {A} (m : M A) (handler : string -> M A) : M A :=
  fun this =>
    match m this with
    | Throw e this' => handler e this'
    | o => o
    end.

(** The memoising wrapper, both as the decorator [cached] and as the
    [cached] list of [extendClass] (src/utils.js): the value is kept in
    the property ['_' + name]. *)
Definition cached (name : string) (computer : M val) : M val :=
  fun this =>
    let key := ("_" ++ name)%string in
    match getprop this key with
    | VUndef =>
        match computer this with
        | Ret value this' => Ret value (setprop this' key value)
        | o => o
        end
    | value => Ret value this
    end.

(** An argument expected to be a byte array; the sources pass nothing
    else, and any other value is made to throw. *)
Definition as_bytes (v : val) : result bytes :=
  match v with
  | VArr l => Ok l
  | _ => Error "TypeError"
  end.

(** [this.validator] handed on as [opts.validator]. *)
Definition as_flag (v : val) : option bool :=
  match v with
  | VUndef => None
  | v => Some (truthy v)
  end.

Definition of_flag (f : option bool) : val :=
  match f with
  | Some b => VBool b
  | None => VUndef
  end.

(** [secp256k1.keyFromPrivate(priv)]: elliptic reads a big number or a
    big-endian byte array. *)
Definition keyFromPrivate (priv : val) : result val :=
  match priv with
  | VBN d => Ok (VEcKey (EcPrivate d))
  | VArr l => Ok (VEcKey (EcPrivate (be_to_Z l)))
  | _ => Error "TypeError"
  end.

(** [key.getPublic()] *)
Definition getPublic (k : eckey) : Elliptic.point :=
  match k with
  | EcPrivate d => Elliptic.mul Elliptic.g d
  | EcPublic P => P
  end.

(** [key.getPublic().encodeCompressed()] *)
Definition key_encodeCompressed (k : val) : result val :=
  match k with
  | VEcKey k => b <- Elliptic.encodeCompressed (getPublic k);; Ok (VArr b)
  | _ => Error "TypeError"
  end.

(** [key.pubBytes()] of an EdDSA key. *)
Definition pubBytes (k : edkey) : bytes :=
  match k with
  | EdSecret secret => Elliptic.ed_pubBytes secret
  | EdPublic pub => pub
  end.

Section WithLib.
Context {lib : EllipticSig}.

(** [secp256k1.keyFromPublic(pub)] *)
Definition keyFromPublic (pub : val) : result val :=
  b <- as_bytes pub;;
  P <- ec_keyFromPublic b;;
  Ok (VEcKey (EcPublic P)).

(** [key.sign(digest, {canonical: true}).toDER()]; a key without a
    private part cannot sign. *)
Definition key_sign_DER (k : val) (digest : bytes) : result bytes :=
  match k with
  | VEcKey (EcPrivate d) => ecdsa_sign d digest
  | _ => Error "TypeError"
  end.

(** [key.verify(digest, signature)] *)
Definition key_verify (k : val) (digest : bytes) (s : sigarg) : result bool :=
  match k with
  | VEcKey k => ecdsa_verify (getPublic k) digest s
  | _ => Error "TypeError"
  end.

(** [key.sign(message).toBytes()] of an EdDSA key. *)
Definition edkey_sign (k : val) (message : bytes) : result bytes :=
  match k with
  | VEdKey (EdSecret secret) => eddsa_sign secret message
  | VEdKey (EdPublic _) => Error "KeyPair can only verify"
  | _ => Error "TypeError"
  end.

(** [key.verify(message, signature)] of an EdDSA key. *)
Definition edkey_verify (k : val) (message signature : bytes) : result bool :=
  match k with
  | VEdKey k => eddsa_verify (pubBytes k) message signature
  | _ => Error "TypeError"
  end.

End WithLib.

End Js.
Import Js.

(* ===================================================================== *)
(** ** src/keypair.js: the base class *)
(* ===================================================================== *)

Module KeyPair.

(** The constructor stores its three optional arguments under the
    underscored names. *)
Definition constructor (seedBytes publicBytes privateBytes : val) : obj :=
  setprop (setprop (setprop ∅ "_seedBytes" seedBytes)
                   "_publicBytes" publicBytes)
          "_privateBytes" privateBytes.

(** [return this._privateBytes || this._seedBytes;] *)
Definition hasPrivateKey : M val :=
  privateBytes <~ get "_privateBytes";;
  seedBytes <~ get "_seedBytes";;
  ret (or_else privateBytes seedBytes).

End KeyPair.

(* ===================================================================== *)
(** ** src/secp256k1.js: the class K256Pair (decorator variant) *)
(* ===================================================================== *)

Module K256Class.

(** [constructor(options)] *)
Definition constructor (seedBytes publicBytes privateBytes validator : val)
  : obj :=
  setprop (setprop (KeyPair.constructor seedBytes publicBytes privateBytes)
                   "type" (VStr "secp256k1"))
          "validator" validator.

(** [static fromSeed(seedBytes, opts = {})] *)
Definition fromSeed (seedBytes : bytes) (o : Secp256k1.opts) : obj :=
  constructor (VArr seedBytes) VUndef VUndef
              (of_flag (Secp256k1.validator o)).

(** [hashjs.sha512().update(message).digest().slice(0, 32)] *)
Definition hashMessage (message : bytes) : bytes :=
  slice_to 32 (HashJs.sha512 message).

Section WithLib.
Context {lib : EllipticSig}.

(** The two memoised methods call each other; [fuel] bounds the depth
    of the nested calls.
    [key() { if (this.seedBytes) { ... keyFromPrivate(deriveSecret(...)) }
             return secp256k1.keyFromPublic(this.pubKeyCanonicalBytes()); }]
    [pubKeyCanonicalBytes() {
       return this.key().getPublic().encodeCompressed(); }] *)
Fixpoint key (fuel : nat) : M val :=
  match fuel with
  | O => out_of_fuel
  | S fuel' =>
      cached "key"
        (seedBytes <~ get "seedBytes";;
         if truthy seedBytes then
           validator <~ get "validator";;
           seed <~ lift (as_bytes seedBytes);;
           secret <~ lift (Secp256k1.deriveSecret seed
                             (Secp256k1.mkOpts (as_flag validator) None));;
           lift (keyFromPrivate (VBN secret))
         else
           pub <~ pubKeyCanonicalBytes fuel';;
           lift (keyFromPublic pub))
  end
with pubKeyCanonicalBytes (fuel : nat) : M val :=
  match fuel with
  | O => out_of_fuel
  | S fuel' =>
      cached "pubKeyCanonicalBytes"
        (k <~ key fuel';;
         lift (key_encodeCompressed k))
  end.

(** [_createSignature(message).toDER()] *)
Definition sign (fuel : nat) (message : bytes) : M bytes :=
  k <~ key fuel;;
  lift (key_sign_DER k (hashMessage message)).

(** [verify(message, signature)], with its try / catch. *)
Definition verify (fuel : nat) (message signature : bytes) : M bool :=
  try_catch
    (k <~ key fuel;;
     lift (key_verify k (hashMessage message) (SigBytes signature)))
    (fun _ => ret false).

(** The expression [K.verify(K.sign(M), M)], evaluated on the pair. *)
Definition sign_then_verify (fuel : nat) (M : bytes) : Js.M bool :=
  signature <~ sign fuel M;;
  verify fuel signature M.

End WithLib.

End K256Class.

(* ===================================================================== *)
(** ** The class K256Pair built with extendClass *)
(* ===================================================================== *)

Module K256Ext.

(** The other revision of secp256k1.js among the sources: the class is
    assembled by [extendClass] from lists of static, plain and cached
    methods, has fromPublic and fromPrivate besides fromSeed, and its
    verify takes (signature, message). *)
Definition constructor (seedBytes publicBytes privateBytes validator : val)
  : obj :=
  setprop (setprop (KeyPair.constructor seedBytes publicBytes privateBytes)
                   "type" (VStr "secp256k1"))
          "validator" validator.

Definition fromPublic (publicKey : bytes) : obj :=
  constructor VUndef (VArr publicKey) VUndef VUndef.

Definition fromPrivate (privateKey : bytes) : obj :=
  constructor VUndef VUndef (VArr privateKey) VUndef.

Definition fromSeed (seedBytes : bytes) (o : Secp256k1.opts) : obj :=
  constructor (VArr seedBytes) VUndef VUndef
              (of_flag (Secp256k1.validator o)).

(** [new Sha512().add(message).first256()] *)
Definition hashMessage (message : bytes) : bytes :=
  Sha512.first256 (Sha512.add Sha512.new message).

(** [derivePrivate] is the name of [deriveSecret] in this revision; the
    two functions have the same body. *)
Definition derivePrivate := Secp256k1.deriveSecret.

(** [this._privateBytes || derivePrivate(this._seedBytes, {validator})] *)
Definition _private : M val :=
  privateBytes <~ get "_privateBytes";;
  if truthy privateBytes then ret privateBytes else
  seedBytes <~ get "_seedBytes";;
  validator <~ get "validator";;
  seed <~ lift (as_bytes seedBytes);;
  secret <~ lift (derivePrivate seed
                    (Secp256k1.mkOpts (as_flag validator) None));;
  ret (VBN secret).

(** [this._private().toArray('be', 32)], memoised: only a big number
    has [toArray]. *)
Definition privateBytes : M val :=
  cached "privateBytes"
    (p <~ _private;;
     match p with
     | VBN d => b <~ lift (BN.toArray d 32);; ret (VArr b)
     | _ => throw "TypeError"
     end).

Section WithLib.
Context {lib : EllipticSig}.

(** [key() { if (this.hasPrivateKey()) {
               return secp256k1.keyFromPrivate(this._private()); }
             return secp256k1.keyFromPublic(this.publicBytes()); }]
    [publicBytes() { return this.key().getPublic().encodeCompressed(); }] *)
Fixpoint key (fuel : nat) : M val :=
  match fuel with
  | O => out_of_fuel
  | S fuel' =>
      cached "key"
        (has <~ KeyPair.hasPrivateKey;;
         if truthy has then
           p <~ _private;;
           lift (keyFromPrivate p)
         else
           pub <~ publicBytes fuel';;
           lift (keyFromPublic pub))
  end
with publicBytes (fuel : nat) : M val :=
  match fuel with
  | O => out_of_fuel
  | S fuel' =>
      cached "publicBytes"
        (k <~ key fuel';;
         lift (key_encodeCompressed k))
  end.

Definition sign (fuel : nat) (message : bytes) : M bytes :=
  k <~ key fuel;;
  lift (key_sign_DER k (hashMessage message)).

(** [verify(signature, message)], with its try / catch. *)
Definition verify (fuel : nat) (signature message : bytes) : M bool :=
  try_catch
    (k <~ key fuel;;
     lift (key_verify k (hashMessage message) (SigBytes signature)))
    (fun _ => ret false).

(** The expression [K.verify(K.sign(M), M)], evaluated on the pair. *)
Definition sign_then_verify (fuel : nat) (M : bytes) : Js.M bool :=
  signature <~ sign fuel M;;
  verify fuel signature M.

End WithLib.

End K256Ext.

(* ===================================================================== *)
(** ** src/ed25519.js: the class Ed25519Pair *)
(* ===================================================================== *)

Module Ed25519Ext.

(** [new Sha512().add(seed).first256()] *)
Definition deriveEdKeyPairPrivate (seed : bytes) : bytes :=
  Sha512.first256 (Sha512.add Sha512.new seed).

Definition constructor (seedBytes publicBytes privateBytes : val) : obj :=
  setprop (KeyPair.constructor seedBytes publicBytes privateBytes)
          "type" (VStr "ed25519").

Definition fromPublic (publicKey : bytes) : obj :=
  constructor VUndef (VArr publicKey) VUndef.

Definition fromPrivate (privateKey : bytes) : obj :=
  constructor VUndef VUndef (VArr privateKey).

Definition fromSeed (seedBytes : bytes) : obj :=
  constructor (VArr seedBytes) VUndef VUndef.

(** [this._privateBytes ? this._privateBytes.slice(1)
                        : deriveEdKeyPairPrivate(this._seedBytes)] *)
Definition _privateKeySigningBytes : M val :=
  cached "_privateKeySigningBytes"
    (privateBytes <~ get "_privateBytes";;
     if truthy privateBytes then
       b <~ lift (as_bytes privateBytes);;
       ret (VArr (slice_from 1 b))
     else
       seedBytes <~ get "_seedBytes";;
       seed <~ lift (as_bytes seedBytes);;
       ret (VArr (deriveEdKeyPairPrivate seed))).

(** [[0xED].concat(this._privateKeySigningBytes())] *)
Definition privateBytes : M val :=
  cached "privateBytes"
    (s <~ _privateKeySigningBytes;;
     b <~ lift (as_bytes s);;
     ret (VArr (0xED :: b))).

Fixpoint key (fuel : nat) : M val :=
  match fuel with
  | O => out_of_fuel
  | S fuel' =>
      cached "key"
        (has <~ KeyPair.hasPrivateKey;;
         if truthy has then
           s <~ _privateKeySigningBytes;;
           secret <~ lift (as_bytes s);;
           ret (VEdKey (EdSecret secret))
         else
           p <~ publicBytes fuel';;
           pub <~ lift (as_bytes p);;
           ret (VEdKey (EdPublic (slice_from 1 pub))))
  end
with publicBytes (fuel : nat) : M val :=
  match fuel with
  | O => out_of_fuel
  | S fuel' =>
      cached "publicBytes"
        (k <~ key fuel';;
         match k with
         | VEdKey k => ret (VArr (0xED :: pubBytes k))
         | _ => throw "TypeError"
         end)
  end.

Section WithLib.
Context {lib : EllipticSig}.

(** [this.key().sign(message).toBytes()] *)
Definition sign (fuel : nat) (message : bytes) : M bytes :=
  k <~ key fuel;;
  lift (edkey_sign k message).

(** [this.key().verify(message, signature)] *)
Definition verify (fuel : nat) (signature message : bytes) : M bool :=
  k <~ key fuel;;
  lift (edkey_verify k message signature).

(** The expression [K.verify(K.sign(M), M)], evaluated on the pair. *)
Definition sign_then_verify (fuel : nat) (M : bytes) : Js.M bool :=
  signature <~ sign fuel M;;
  verify fuel signature M.

End WithLib.

End Ed25519Ext.

(* ===================================================================== *)
(** ** src/index.js: sign and verify on key pairs *)
(* ===================================================================== *)

Module Index.

Section WithLib.
Context {lib : EllipticSig}.

(** [keyPairFromPrivate(privateKey).sign(message)]; the class is chosen
    by [pairContructor(key.type)]. The outcome is that of the method
    call on the new pair. *)
Definition sign (fuel : nat) (message privateKey : bytes) : outcome bytes :=
  let '(type, b) := Utils.parseKey privateKey in
  match type with
  | ed25519 => Ed25519Ext.sign fuel message (Ed25519Ext.fromPrivate b)
  | secp256k1 => K256Ext.sign fuel message (K256Ext.fromPrivate b)
  end.

(** [keyPairFromPublic(publicKey).verify(signature, message)] *)
Definition verify (fuel : nat) (signature message publicKey : bytes)
  : outcome bool :=
  let '(type, b) := Utils.parseKey publicKey in
  match type with
  | ed25519 =>
      Ed25519Ext.verify fuel signature message (Ed25519Ext.fromPublic b)
  | secp256k1 =>
      K256Ext.verify fuel signature message (K256Ext.fromPublic b)
  end.

End WithLib.

End Index.

(* ===================================================================== *)
(** ** src/api.js: the hex-string entry points *)
(* ===================================================================== *)

Module Api.

(** A derived key pair: [{privateKey, publicKey}], both hex strings. *)
Record keypair := mkKeypair { privateKey : string; publicKey : string }.

(** [secp256k1.deriveKeypair(entropy, options)] *)
Definition secp256k1_deriveKeypair (entropy : bytes) (options : Secp256k1.opts)
  : result keypair :=
  let prefix := "00"%string in
  secret <- Secp256k1.deriveSecret entropy options;;
  let privateKey :=
    (prefix ++ BN.toUpperCase (BN.toString16_padded 64 secret))%string in
  d <- BN.of_hex privateKey;;
  encoded <- Elliptic.encodeCompressed (getPublic (EcPrivate d));;
  Ok (mkKeypair privateKey (Utils.bytesToHex encoded)).

(** [ed25519.deriveKeypair(entropy)] *)
Definition ed25519_deriveKeypair (entropy : bytes) : result keypair :=
  let prefix := "ED"%string in
  let rawPrivateKey := Sha512.first256 (Sha512.add Sha512.new entropy) in
  let privateKey := (prefix ++ Utils.bytesToHex rawPrivateKey)%string in
  let publicKey :=
    (prefix ++ Utils.bytesToHex (pubBytes (EdSecret rawPrivateKey)))%string in
  Ok (mkKeypair privateKey publicKey).

(** [deriveKeypair(seed, options)] after the codec has decoded the seed
    into its type and bytes. *)
Definition deriveKeypair (type : KeyType) (seed : bytes)
  (options : Secp256k1.opts) : result keypair :=
  match type with
  | secp256k1 => secp256k1_deriveKeypair seed options
  | ed25519 => ed25519_deriveKeypair seed
  end.

(** [getAlgorithmFromKey(key)] *)
Definition getAlgorithmFromKey (key : string) : result KeyType :=
  b <- Utils.hexToBytes key;;
  Ok (Utils.key_type_of b).

Section WithLib.
Context {lib : EllipticSig}.

Definition secp256k1_sign (message : bytes) (privateKey : string)
  : result string :=
  let digest := slice_to 32 (HashJs.sha512 message) in
  pk <- Utils.hexToBytes privateKey;;
  key <- keyFromPrivate (VArr pk);;
  s <- key_sign_DER key digest;;
  Ok (Utils.bytesToHex s).

Definition secp256k1_verify (signature : string) (message : bytes)
  (publicKey : string) : result bool :=
  pk <- Utils.hexToBytes publicKey;;
  key <- keyFromPublic (VArr pk);;
  let digest := slice_to 32 (HashJs.sha512 message) in
  key_verify key digest (SigHex signature).

Definition ed25519_sign (message : bytes) (privateKey : string)
  : result string :=
  pk <- Utils.hexToBytes privateKey;;
  let key := VEdKey (EdSecret (slice_from 1 pk)) in
  s <- edkey_sign key message;;
  Ok (Utils.bytesToHex s).

Definition ed25519_verify (signature : string) (message : bytes)
  (publicKey : string) : result bool :=
  pk <- Utils.hexToBytes publicKey;;
  let key := VEdKey (EdPublic (slice_from 1 pk)) in
  s <- Utils.hexToBytes signature;;
  edkey_verify key message s.

(** [sign(message, privateKey)]: [select(algorithm).sign(...)] *)
Definition sign (message : bytes) (privateKey : string) : result string :=
  algorithm <- getAlgorithmFromKey privateKey;;
  match algorithm with
  | secp256k1 => secp256k1_sign message privateKey
  | ed25519 => ed25519_sign message privateKey
  end.

(** [verify(signature, message, publicKey)] *)
Definition verify (signature : string) (message : bytes) (publicKey : string)
  : result bool :=
  algorithm <- getAlgorithmFromKey publicKey;;
  match algorithm with
  | secp256k1 => secp256k1_verify signature message publicKey
  | ed25519 => ed25519_verify signature message publicKey
  end.

End WithLib.

End Api.

(* ===================================================================== *)
(** ** The derivations in the words of the specification *)
(* ===================================================================== *)

(** These definitions follow the text of the specification, not the
    code; the theorems below compare the code with them. *)

(** Section 4.2: the candidate of counter [i] is the first 32 bytes of
    the digest of the input, the discriminator (when there is one) and
    the counter, both as four big-endian bytes, read as a big-endian
    unsigned integer. *)
Definition spec_candidate (bytes0 : bytes) (discrim : option Z) (i : Z) : Z :=
  be_to_Z
    (firstn 32
       (HashJs.sha512
          (bytes0 ++
           match discrim with Some d => Z_to_be 4 d | None => [] end ++
           Z_to_be 4 i))).

(** Section 4.3: the private generator is deriveScalar(seed); a root
    derivation stops there; otherwise the offset is
    deriveScalar(encodeCompressed(basePoint * privateGenerator),
    accountIndex) and the private scalar is
    (offset + privateGenerator) mod curveOrder. *)
Definition spec_privateScalar (seed : bytes) (root : bool) (accountIndex : Z)
  : result Z :=
  match Secp256k1.deriveScalar seed None with
  | Error e => Error e
  | Ok privateGenerator =>
      if root then Ok privateGenerator else
      match Elliptic.encodeCompressed
              (Elliptic.mul Elliptic.g privateGenerator) with
      | Error e => Error e
      | Ok publicGenerator =>
          match Secp256k1.deriveScalar publicGenerator (Some accountIndex) with
          | Error e => Error e
          | Ok offset => Ok ((offset + privateGenerator) mod Elliptic.n)
          end
      end
  end.

(* ===================================================================== *)
(** * Properties *)
(* ===================================================================== *)

(** ** Byte arrays and digests *)

Lemma length_Z_to_be (n : nat) (x : Z) : length (Z_to_be n x) = n.
Proof. induction n as [|n IH]; simpl; [reflexivity | now rewrite IH]. Qed.

Lemma sha512_length (msg : bytes) : length (HashJs.sha512 msg) = 64%nat.
Proof.
  unfold HashJs.sha512, HashJs.digest_bytes.
  rewrite !length_app, !length_Z_to_be. reflexivity.
Qed.

Lemma first256_length (h : Sha512.hasher) : length (Sha512.first256 h) = 32%nat.
Proof.
  unfold Sha512.first256, Sha512.finish, slice_to.
  rewrite length_firstn, sha512_length. reflexivity.
Qed.

(** FIPS 180-4 test vector: SHA-512 of the three bytes of "abc". *)
Example sha512_abc :
  be_to_Z (HashJs.sha512 [97; 98; 99]) =
  0xddaf35a193617abacc417349ae20413112e6fa4e89a97ea20a9eeee64b55d39a2192992a274fc1a836ba3c23a3feebbd454d4423643ce80e2a9ac94fa54ca49f.
Proof. vm_compute. reflexivity. Qed.

(** ** The fast curve operations compute the model's values *)

Section FastCorrect.

Ltac big_to_Z :=
  unfold Fast.Zof, Fast.fp, Fast.fq, Fast.p, Fast.q, Fast.ed_d;
  repeat first
    [ rewrite BigZ.spec_modulo | rewrite BigZ.spec_mul
    | rewrite BigZ.spec_add | rewrite BigZ.spec_sub
    | rewrite BigZ.spec_of_Z | rewrite BigZ.spec_eqb ].

Lemma Fast_powmod_pos (m b : bigZ) (e : positive) :
  Fast.Zof (Fast.powmod_pos m b e) =
  Elliptic.powmod_pos (Fast.Zof m) (Fast.Zof b) e.
Proof.
  unfold Fast.Zof.
  induction e as [e IH | e IH |]; cbn [Fast.powmod_pos Elliptic.powmod_pos];
    cbv zeta; rewrite ?BigZ.spec_modulo, ?BigZ.spec_mul, ?BigZ.spec_modulo,
                ?BigZ.spec_mul, ?IH; reflexivity.
Qed.

Lemma Fast_powmod (m b : bigZ) (e : Z) :
  Fast.Zof (Fast.powmod m b e) = Elliptic.powmod (Fast.Zof m) (Fast.Zof b) e.
Proof.
  destruct e as [|e|e]; cbn [Fast.powmod Elliptic.powmod];
    [| apply Fast_powmod_pos |]; big_to_Z; reflexivity.
Qed.

Lemma Fast_jdouble (P : Fast.jac) :
  Fast.jac_of (Fast.jdouble P) = Elliptic.jdouble (Fast.jac_of P).
Proof.
  unfold Fast.jdouble, Elliptic.jdouble, Fast.jac_of, Elliptic.fp.
  cbv zeta. cbn [Fast.jX Fast.jY Fast.jZ Elliptic.jX Elliptic.jY Elliptic.jZ].
  big_to_Z. reflexivity.
Qed.

Lemma Fast_jadd (P : Fast.jac) (x2 y2 : bigZ) :
  Fast.jac_of (Fast.jadd P x2 y2) =
  Elliptic.jadd (Fast.jac_of P) (Fast.Zof x2) (Fast.Zof y2).
Proof.
  unfold Fast.jadd, Elliptic.jadd. cbv zeta.
  rewrite !BigZ.spec_eqb.
  change (Elliptic.jZ (Fast.jac_of P)) with (BigZ.to_Z (Fast.jZ P)).
  change (BigZ.to_Z 0) with 0.
  destruct (BigZ.to_Z (Fast.jZ P) =? 0); [reflexivity |].
  unfold Fast.jac_of at 2 3 4 5 6 7 8 9 10 11 12 13 14 15 16 17 18 19 20.
  cbn [Elliptic.jX Elliptic.jY Elliptic.jZ]. unfold Elliptic.fp.
  big_to_Z.
  match goal with |- context [if ?c then _ else _] => destruct c end.
  - match goal with |- context [if ?c then _ else _] => destruct c end;
      [apply Fast_jdouble | reflexivity].
  - unfold Fast.jac_of. cbn [Fast.jX Fast.jY Fast.jZ]. big_to_Z. reflexivity.
Qed.

Lemma Fast_jmul_pos (k : positive) (x y : bigZ) :
  Fast.jac_of (Fast.jmul_pos k x y) =
  Elliptic.jmul_pos k (Fast.Zof x) (Fast.Zof y).
Proof.
  induction k as [k IH | k IH |]; cbn [Fast.jmul_pos Elliptic.jmul_pos].
  - now rewrite Fast_jadd, Fast_jdouble, IH.
  - now rewrite Fast_jdouble, IH.
  - reflexivity.
Qed.

Lemma Fast_to_affine (P : Fast.jac) :
  Fast.to_affine P = Elliptic.to_affine (Fast.jac_of P).
Proof.
  unfold Fast.to_affine, Elliptic.to_affine, Fast.jac_of, Fast.Zof,
    Fast.fp, Elliptic.fp, Fast.p.
  generalize (Elliptic.p - 2) as e. generalize Elliptic.p as m. intros m e.
  cbv zeta. cbn [Elliptic.jX Elliptic.jY Elliptic.jZ].
  rewrite BigZ.spec_eqb. change (BigZ.to_Z 0) with 0.
  destruct (BigZ.to_Z (Fast.jZ P) =? 0); [reflexivity |].
  pose proof (Fast_powmod (BigZ.of_Z m) (Fast.jZ P) e) as E.
  unfold Fast.Zof in E. rewrite BigZ.spec_of_Z in E.
  rewrite !BigZ.spec_modulo, !BigZ.spec_mul, !BigZ.spec_modulo,
    !BigZ.spec_mul, !BigZ.spec_modulo, !BigZ.spec_mul, !BigZ.spec_of_Z, !E.
  reflexivity.
Qed.

(** [g.mul(k)] through the fast operations. *)
Lemma Fast_g_mul (k : positive) :
  Elliptic.mul Elliptic.g (Zpos k) = Fast.g_mul k.
Proof.
  unfold Fast.g_mul. rewrite Fast_to_affine, Fast_jmul_pos.
  unfold Fast.Zof. rewrite !BigZ.spec_of_Z. reflexivity.
Qed.

Lemma Fast_ed_add (P Q : Fast.ext) :
  Fast.ext_of (Fast.ed_add P Q) =
  Elliptic.ed_add (Fast.ext_of P) (Fast.ext_of Q).
Proof.
  unfold Fast.ed_add, Elliptic.ed_add, Fast.ext_of, Elliptic.fq. cbv zeta.
  cbn [Fast.eX Fast.eY Fast.eZ Fast.eT
       Elliptic.eX Elliptic.eY Elliptic.eZ Elliptic.eT].
  big_to_Z. reflexivity.
Qed.

Lemma Fast_ed_mul_pos (k : positive) (P : Fast.ext) :
  Fast.ext_of (Fast.ed_mul_pos k P) =
  Elliptic.ed_mul_pos k (Fast.ext_of P).
Proof.
  induction k as [k IH | k IH |];
    cbn [Fast.ed_mul_pos Elliptic.ed_mul_pos]; cbv zeta;
    rewrite ?Fast_ed_add, ?IH; reflexivity.
Qed.

Lemma Fast_ed_base : Fast.ext_of Fast.ed_base = Elliptic.ed_base.
Proof.
  unfold Fast.ed_base, Elliptic.ed_base, Fast.ext_of, Elliptic.fq.
  cbn [Fast.eX Fast.eY Fast.eZ Fast.eT]. big_to_Z. reflexivity.
Qed.

Lemma Fast_ed_affine (P : Fast.ext) :
  Fast.ed_affine P = Elliptic.ed_affine (Fast.ext_of P).
Proof.
  unfold Fast.ed_affine, Elliptic.ed_affine, Fast.ext_of, Fast.Zof,
    Fast.fq, Elliptic.fq, Fast.q.
  generalize (Elliptic.q - 2) as e. generalize Elliptic.q as m. intros m e.
  cbv zeta. cbn [Elliptic.eX Elliptic.eY Elliptic.eZ].
  pose proof (Fast_powmod (BigZ.of_Z m) (Fast.eZ P) e) as E.
  unfold Fast.Zof in E. rewrite BigZ.spec_of_Z in E.
  rewrite !BigZ.spec_modulo, !BigZ.spec_mul, !BigZ.spec_of_Z, !E.
  reflexivity.
Qed.

(** The affine coordinates of [k] times the ed25519 base point. *)
Lemma Fast_ed_base_mul (k : positive) :
  Elliptic.ed_affine (Elliptic.ed_mul Elliptic.ed_base (Zpos k)) =
  Fast.ed_affine (Fast.ed_mul_pos k Fast.ed_base).
Proof.
  rewrite Fast_ed_affine, Fast_ed_mul_pos, Fast_ed_base. reflexivity.
Qed.

End FastCorrect.

Lemma u32be_big_endian (i : Z) : Sha512.u32be i = Z_to_be 4 i.
Proof. reflexivity. Qed.

(** ** deriveScalar *)

Section DeriveScalar.
Import Secp256k1.
Variables (bytes0 : bytes) (discrim : option Z).

Lemma in_range_iff (key : Z) : in_range key = true <-> 0 < key < Elliptic.n.
Proof. unfold in_range. rewrite andb_true_iff, !Z.ltb_lt. reflexivity. Qed.

Lemma attempt_Some (i key : Z) :
  attempt bytes0 discrim i = Some key <->
  key = candidate bytes0 discrim i /\ 0 < key < Elliptic.n.
Proof.
  unfold attempt.
  destruct (in_range (candidate bytes0 discrim i)) eqn:E.
  - apply in_range_iff in E. split.
    + intros [= <-]. split; [reflexivity | exact E].
    + intros [-> _]. reflexivity.
  - split; [discriminate |].
    intros [-> H]. apply in_range_iff in H. congruence.
Qed.

Lemma attempt_None (i : Z) :
  attempt bytes0 discrim i = None <->
  ~ 0 < candidate bytes0 discrim i < Elliptic.n.
Proof.
  unfold attempt. rewrite <- in_range_iff.
  destruct (in_range (candidate bytes0 discrim i)); split;
    try discriminate; try congruence; intros H; now elim H.
Qed.

(** A scan that finds nothing has rejected every counter of its range. *)
Lemma scan_None (k : nat) : forall lo,
  scan bytes0 discrim k lo = None <->
  forall i, lo <= i < lo + 2 ^ Z.of_nat k -> attempt bytes0 discrim i = None.
Proof.
  induction k as [|k IH]; intros lo.
  - simpl. split.
    + intros H i Hi. replace i with lo by lia. exact H.
    + intros H. apply H. lia.
  - cbn [scan].
    assert (E : 2 ^ Z.of_nat (S k) = 2 * 2 ^ Z.of_nat k)
      by (rewrite Nat2Z.inj_succ, Z.pow_succ_r by lia; reflexivity).
    assert (P : 0 < 2 ^ Z.of_nat k) by (apply Z.pow_pos_nonneg; lia).
    destruct (scan bytes0 discrim k lo) as [key|] eqn:E1.
    + split; [discriminate |].
      intros H. assert (N : scan bytes0 discrim k lo = None)
        by (apply IH; intros i Hi; apply H; lia).
      congruence.
    + rewrite IH. pose proof (proj1 (IH lo) E1) as H1. split.
      * intros H2 i Hi.
        destruct (Z_lt_dec i (lo + 2 ^ Z.of_nat k));
          [apply H1 | apply H2]; lia.
      * intros H i Hi. apply H. lia.
Qed.

(** A scan returns the result of the least counter of its range that is
    accepted. *)
Lemma scan_Some (k : nat) : forall lo key,
  scan bytes0 discrim k lo = Some key <->
  exists i, lo <= i < lo + 2 ^ Z.of_nat k /\
            attempt bytes0 discrim i = Some key /\
            forall j, lo <= j < i -> attempt bytes0 discrim j = None.
Proof.
  induction k as [|k IH]; intros lo key.
  - simpl. split.
    + intros H. exists lo. repeat split; [lia | lia | exact H | intros; lia].
    + intros (i & Hi & H & _). replace lo with i by lia. exact H.
  - cbn [scan].
    assert (E : 2 ^ Z.of_nat (S k) = 2 * 2 ^ Z.of_nat k)
      by (rewrite Nat2Z.inj_succ, Z.pow_succ_r by lia; reflexivity).
    assert (P : 0 < 2 ^ Z.of_nat k) by (apply Z.pow_pos_nonneg; lia).
    destruct (scan bytes0 discrim k lo) as [key1|] eqn:E1.
    + apply IH in E1 as (i1 & Hi1 & A1 & N1). split.
      * intros [= <-]. exists i1. repeat split; try lia; assumption.
      * intros (i & Hi & A & N).
        destruct (Z.lt_trichotomy i i1) as [L | [-> | L]].
        -- rewrite N1 in A by lia. discriminate.
        -- congruence.
        -- rewrite N in A1 by lia. discriminate.
    + pose proof (proj1 (scan_None k lo) E1) as N1. rewrite IH. split.
      * intros (i & Hi & A & N). exists i. repeat split; try lia; [exact A |].
        intros j Hj.
        destruct (Z_lt_dec j (lo + 2 ^ Z.of_nat k));
          [apply N1 | apply N]; lia.
      * intros (i & Hi & A & N). exists i.
        assert (~ i < lo + 2 ^ Z.of_nat k)
          by (intros L; rewrite N1 in A by lia; discriminate).
        repeat split; try lia; [exact A |]. intros j Hj. apply N. lia.
Qed.

(** Running [a + b] iterations is running [a] and then, if none
    returned, [b] more. *)
Lemma loop_add (a b : nat) : forall i,
  loop bytes0 discrim (a + b) i =
  match loop bytes0 discrim a i with
  | Some key => Some key
  | None => loop bytes0 discrim b (i + Z.of_nat a)
  end.
Proof.
  induction a as [|a IH]; intros i.
  - cbn [loop Nat.add]. f_equal. lia.
  - cbn [loop Nat.add]. destruct (attempt bytes0 discrim i); [reflexivity |].
    rewrite IH. destruct (loop bytes0 discrim a (i + 1)); [reflexivity |].
    f_equal. lia.
Qed.

(** The halved scan is the loop run for 2^k iterations. *)
Lemma scan_loop (k : nat) : forall lo,
  scan bytes0 discrim k lo = loop bytes0 discrim (2 ^ k) lo.
Proof.
  induction k as [|k IH]; intros lo.
  - cbn [scan Nat.pow loop]. now destruct (attempt bytes0 discrim lo).
  - cbn [scan]. rewrite !IH.
    replace (2 ^ S k)%nat with (2 ^ k + 2 ^ k)%nat
      by (cbn [Nat.pow]; lia).
    rewrite loop_add. rewrite Nat2Z.inj_pow. reflexivity.
Qed.

(** [deriveScalar] is the loop over the 2^32 counters from 0. *)
Lemma deriveScalar_loop :
  deriveScalar bytes0 discrim =
  match loop bytes0 discrim (2 ^ 32) 0 with
  | Some key => Ok key
  | None => Error "impossible unicorn ;)"
  end.
Proof. unfold deriveScalar. now rewrite scan_loop. Qed.

End DeriveScalar.

Lemma candidate_spec (bytes0 : bytes) (discrim : option Z) (i : Z) :
  Secp256k1.candidate bytes0 discrim i = spec_candidate bytes0 discrim i.
Proof.
  unfold Secp256k1.candidate, spec_candidate, Sha512.first256BN,
    Sha512.first256, Sha512.finish, Sha512.addU32, Sha512.add, Sha512.new,
    slice_to.
  destruct discrim as [d|]; rewrite ?u32be_big_endian; simpl app.
  - now rewrite <- app_assoc.
  - reflexivity.
Qed.

(** C1. For every byte sequence and optional discriminator, deriveScalar
    returns the candidate of the least counter [i] in [0, 2^32) whose
    candidate lies strictly between 0 and the curve order, the candidate
    being the first 32 bytes of SHA-512(bytes ++ BE32(discriminator, if
    present) ++ BE32(i)) read big-endian; it throws exactly when no
    counter of the 2^32 gives such a candidate. *)
Theorem deriveScalar_first_candidate (bytes0 : bytes) (discrim : option Z) :
  (forall key,
     Secp256k1.deriveScalar bytes0 discrim = Ok key <->
     exists i, 0 <= i < 2 ^ 32 /\
               key = spec_candidate bytes0 discrim i /\
               0 < key < Elliptic.n /\
               forall j, 0 <= j < i ->
                 ~ 0 < spec_candidate bytes0 discrim j < Elliptic.n) /\
  ((exists e, Secp256k1.deriveScalar bytes0 discrim = Error e) <->
   forall i, 0 <= i < 2 ^ 32 ->
     ~ 0 < spec_candidate bytes0 discrim i < Elliptic.n).
Proof.
  unfold Secp256k1.deriveScalar. split.
  - intros key.
    destruct (Secp256k1.scan bytes0 discrim 32 0) as [key'|] eqn:E.
    + apply scan_Some in E as (i & Hi & A & N).
      apply attempt_Some in A as [-> R]. split.
      * intros [= <-]. exists i. rewrite <- candidate_spec.
        repeat split; try lia.
        intros j Hj. rewrite <- candidate_spec. apply attempt_None, N. lia.
      * intros (i' & Hi' & -> & R' & N'). f_equal.
        rewrite <- candidate_spec in *.
        destruct (Z.lt_trichotomy i i') as [L | [-> | L]].
        -- exfalso. apply (N' i); [lia |]. rewrite <- candidate_spec. exact R.
        -- reflexivity.
        -- exfalso. specialize (N i' ltac:(lia)).
           apply attempt_None in N. tauto.
    + split; [discriminate |].
      intros (i & Hi & -> & R & _). exfalso.
      pose proof (proj1 (scan_None bytes0 discrim 32 0) E i Hi) as N.
      apply attempt_None in N. rewrite candidate_spec in N. tauto.
  - destruct (Secp256k1.scan bytes0 discrim 32 0) as [key'|] eqn:E.
    + apply scan_Some in E as (i & Hi & A & N).
      apply attempt_Some in A as [-> R]. split.
      * intros [e [=]].
      * intros H. exfalso. apply (H i Hi). rewrite <- candidate_spec. exact R.
    + split.
      * intros _ i Hi. rewrite <- candidate_spec. apply attempt_None.
        exact (proj1 (scan_None bytes0 discrim 32 0) E i Hi).
      * intros _. eexists. reflexivity.
Qed.

(** The root private key that the repository's tests expect for sixteen
    zero bytes of entropy. *)
Example deriveScalar_zero_entropy :
  Secp256k1.deriveScalar (repeat 0 16) None =
  Ok 0xD296B892B3A7964BD0CC882FC7C0BE948B6BBD8EB1EFF8C13942FCAABF1F3877.
Proof. vm_compute. reflexivity. Qed.

(** C5. Every scalar that deriveScalar returns, whatever the bytes and
    whether or not a discriminator is given, lies strictly between 0 and
    the curve order. *)
Theorem deriveScalar_in_range (bytes0 : bytes) (discrim : option Z) (key : Z) :
  Secp256k1.deriveScalar bytes0 discrim = Ok key -> 0 < key < Elliptic.n.
Proof.
  unfold Secp256k1.deriveScalar.
  destruct (Secp256k1.scan bytes0 discrim 32 0) as [key'|] eqn:E;
    [| discriminate].
  intros [= <-]. apply scan_Some in E as (i & _ & A & _).
  now apply attempt_Some in A.
Qed.

Lemma deriveScalar_in_range_witness :
  Secp256k1.deriveScalar (repeat 0 16) (Some 0) =
    Ok 0x11BB994B5D2EAB48B18667C7D8943E82C9011CB1D974304B8F2B6247A7E6B7F5 /\
  0 < 0x11BB994B5D2EAB48B18667C7D8943E82C9011CB1D974304B8F2B6247A7E6B7F5
    < Elliptic.n.
Proof.
  assert (H : Secp256k1.deriveScalar (repeat 0 16) (Some 0) =
    Ok 0x11BB994B5D2EAB48B18667C7D8943E82C9011CB1D974304B8F2B6247A7E6B7F5)
    by (vm_compute; reflexivity).
  split; [exact H | exact (deriveScalar_in_range _ _ _ H)].
Defined.

(** ** deriveSecret *)

(** The range test of the loop, as the derivation below uses it: what
    deriveScalar returns passed [key.cmpn(0) > 0 && key.cmp(order) < 0]. *)
Lemma deriveScalar_range (bytes0 : bytes) (discrim : option Z) (key : Z) :
  Secp256k1.deriveScalar bytes0 discrim = Ok key -> 0 < key < Elliptic.n.
Proof.
  unfold Secp256k1.deriveScalar.
  destruct (Secp256k1.scan bytes0 discrim 32 0) as [key'|] eqn:E;
    [| discriminate].
  intros [= <-]. apply scan_Some in E as (i & _ & A & _).
  now apply attempt_Some in A.
Qed.

(** [opts.accountIndex || 0] is the given index, or 0 without one. *)
Lemma account_index_default (o : Secp256k1.opts) :
  Secp256k1.account_index o =
  match Secp256k1.accountIndex o with Some i => i | None => 0 end.
Proof.
  unfold Secp256k1.account_index.
  destruct (Secp256k1.accountIndex o) as [i|]; [| reflexivity].
  destruct (Z.eqb_spec i 0); congruence.
Qed.

(** C2. For every seed, the secp256k1 private scalar is derived in two
    stages: the private generator is deriveScalar(seed) without a
    discriminator; with the root (validator) flag set it is returned
    unchanged; otherwise the result is
    (deriveScalar(encodeCompressed(G * privateGen), accountIndex)
     + privateGen) mod curveOrder, the account index being 0 when none
    is given. *)
Theorem deriveSecret_two_stage (seed : bytes) (o : Secp256k1.opts) :
  Secp256k1.deriveSecret seed o =
  spec_privateScalar seed
    (match Secp256k1.validator o with Some flag => flag | None => false end)
    (match Secp256k1.accountIndex o with Some i => i | None => 0 end).
Proof.
  unfold Secp256k1.deriveSecret, spec_privateScalar, rbind.
  rewrite account_index_default. unfold Secp256k1.is_root.
  destruct (Secp256k1.deriveScalar seed None) as [privateGen|e];
    [| reflexivity].
  destruct (match Secp256k1.validator o with Some b => b | None => false end);
    [reflexivity |].
  destruct (Elliptic.encodeCompressed _) as [encoded|e]; [| reflexivity].
  destruct (Secp256k1.deriveScalar encoded _); reflexivity.
Qed.

Lemma deriveSecret_root (seed : bytes) (o : Secp256k1.opts) :
  Secp256k1.validator o = Some true ->
  Secp256k1.deriveSecret seed o = Secp256k1.deriveScalar seed None.
Proof.
  intros H. unfold Secp256k1.deriveSecret, Secp256k1.is_root, rbind.
  rewrite H. now destruct (Secp256k1.deriveScalar seed None).
Qed.

(** Whatever deriveSecret returns is a residue modulo the curve order. *)
Lemma deriveSecret_bound (seed : bytes) (o : Secp256k1.opts) (d : Z) :
  Secp256k1.deriveSecret seed o = Ok d -> 0 <= d < Elliptic.n.
Proof.
  unfold Secp256k1.deriveSecret, rbind.
  destruct (Secp256k1.deriveScalar seed None) as [pg|] eqn:E1; [| discriminate].
  apply deriveScalar_range in E1.
  destruct (Secp256k1.is_root o).
  - intros [= <-]. lia.
  - destruct (Elliptic.encodeCompressed _); [| discriminate].
    destruct (Secp256k1.deriveScalar _ _); [| discriminate].
    intros [= <-]. apply Z.mod_pos_bound. reflexivity.
Qed.

(** The account derivation never gives back the private generator: the
    offset added to it is not a multiple of the curve order. *)
Lemma deriveSecret_account_moves (seed : bytes) (o : Secp256k1.opts)
  (privateGen d : Z) :
  Secp256k1.is_root o = false ->
  Secp256k1.deriveScalar seed None = Ok privateGen ->
  Secp256k1.deriveSecret seed o = Ok d ->
  d <> privateGen.
Proof.
  unfold Secp256k1.deriveSecret, rbind. intros -> ->.
  destruct (Elliptic.encodeCompressed _) as [enc|]; [| discriminate].
  destruct (Secp256k1.deriveScalar enc _) as [offset|] eqn:E; [| discriminate].
  apply deriveScalar_range in E.
  intros [= <-] H.
  assert (N : 0 < Elliptic.n) by reflexivity.
  assert (G : 0 <= privateGen < Elliptic.n)
    by (rewrite <- H; apply Z.mod_pos_bound; exact N).
  destruct (Z_lt_dec (offset + privateGen) Elliptic.n) as [L|L].
  - rewrite Z.mod_small in H by lia. lia.
  - assert (E2 : (offset + privateGen) mod Elliptic.n
                 = offset + privateGen - Elliptic.n).
    { symmetry. apply Z.mod_unique_pos with (q := 1); lia. }
    lia.
Qed.

(** C6. For every seed, the private scalar derived with the root
    (validator) flag set differs from the one derived with the flag
    unset and account index 0: when the root derivation returns [r], the
    account derivation does not return [r]. *)
Theorem deriveSecret_root_differs (seed : bytes) (r : Z) :
  Secp256k1.deriveSecret seed (Secp256k1.mkOpts (Some true) None) = Ok r ->
  Secp256k1.deriveSecret seed (Secp256k1.mkOpts None (Some 0)) <> Ok r /\
  Secp256k1.deriveSecret seed (Secp256k1.mkOpts (Some false) (Some 0)) <> Ok r /\
  Secp256k1.deriveSecret seed Secp256k1.no_opts <> Ok r.
Proof.
  rewrite deriveSecret_root by reflexivity. intros H.
  repeat split; intros A;
    refine (deriveSecret_account_moves seed _ r r _ H A eq_refl);
    reflexivity.
Qed.

Lemma deriveSecret_root_differs_witness :
  Secp256k1.deriveSecret (repeat 0 16) (Secp256k1.mkOpts (Some true) None) =
    Ok 0xD296B892B3A7964BD0CC882FC7C0BE948B6BBD8EB1EFF8C13942FCAABF1F3877 /\
  Secp256k1.deriveSecret (repeat 0 16) (Secp256k1.mkOpts None (Some 0)) <>
    Ok 0xD296B892B3A7964BD0CC882FC7C0BE948B6BBD8EB1EFF8C13942FCAABF1F3877.
Proof.
  assert (H : Secp256k1.deriveSecret (repeat 0 16)
                (Secp256k1.mkOpts (Some true) None) =
    Ok 0xD296B892B3A7964BD0CC882FC7C0BE948B6BBD8EB1EFF8C13942FCAABF1F3877)
    by (vm_compute; reflexivity).
  split; [exact H | exact (proj1 (deriveSecret_root_differs _ _ H))].
Defined.

(** The account key that the repository's tests expect for sixteen zero
    bytes of entropy. *)
Example deriveSecret_zero_entropy :
  Secp256k1.deriveSecret (repeat 0 16) Secp256k1.no_opts =
  Ok 0x2512BBDFDBB77510883B7DCCBEF270B86DEAC8B64AC762873D75A1BEE6298665.
Proof.
  unfold Secp256k1.deriveSecret. rewrite deriveScalar_zero_entropy.
  cbn [rbind Secp256k1.is_root Secp256k1.validator Secp256k1.no_opts].
  rewrite Fast_g_mul. vm_compute. reflexivity.
Qed.

Example public_key_zero_entropy :
  Elliptic.encodeCompressed
    (Elliptic.mul Elliptic.g
       0x2512BBDFDBB77510883B7DCCBEF270B86DEAC8B64AC762873D75A1BEE6298665) =
  Ok (Z_to_be 33
        0x0390A196799EE412284A5D80BF78C3E84CBB80E1437A0AECD9ADF94D7FEAAFA284).
Proof. rewrite Fast_g_mul. vm_compute. reflexivity. Qed.

(** ** Objects and memoised methods *)

Lemma getprop_empty (k : string) : getprop ∅ k = VUndef.
Proof. unfold getprop. now rewrite lookup_empty. Qed.

Lemma getprop_setprop_eq (o : obj) (k : string) (v : val) :
  getprop (setprop o k v) k = v.
Proof. unfold getprop, setprop. now rewrite lookup_insert_eq. Qed.

Lemma getprop_setprop_ne (o : obj) (k k' : string) (v : val) :
  k <> k' -> getprop (setprop o k v) k' = getprop o k'.
Proof. intros H. unfold getprop, setprop. now rewrite lookup_insert_ne. Qed.

(** Read the properties of an object written out as a chain of
    assignments. *)
Ltac js_props :=
  repeat first
    [ rewrite getprop_setprop_eq
    | rewrite getprop_setprop_ne by discriminate
    | rewrite getprop_empty ].

(** Run the straight-line part of a method body. *)
Ltac js_run :=
  repeat (cbn [String.append truthy or_else as_bytes as_flag of_flag
               lift ret throw];
          unfold bind, get, try_catch, cached, ret, throw, lift;
          js_props).

(** A memoised method whose value is not yet stored, and whose body
    neither returns nor throws, does not return either. *)
Lemma cached_out_of_fuel (name : string) (computer : M val) (this : obj) :
  getprop this ("_" ++ name) = VUndef ->
  computer this = OutOfFuel ->
  cached name computer this = OutOfFuel.
Proof. unfold cached. now intros -> ->. Qed.

(** ** The class K256Pair (decorator variant): key() *)

Section K256ClassKey.
Context {lib : EllipticSig}.

(** On an object without a property [seedBytes] and with neither memo
    set, the two methods keep calling each other: no depth of nesting
    lets either of them return or throw. *)
Lemma key_loops (this : obj) :
  getprop this "seedBytes" = VUndef ->
  getprop this "_key" = VUndef ->
  getprop this "_pubKeyCanonicalBytes" = VUndef ->
  forall fuel,
    K256Class.key fuel this = OutOfFuel /\
    K256Class.pubKeyCanonicalBytes fuel this = OutOfFuel.
Proof.
  intros Hseed Hkey Hpub.
  induction fuel as [|fuel [IHk IHp]]; [split; reflexivity |].
  split; cbn [K256Class.key K256Class.pubKeyCanonicalBytes].
  - apply cached_out_of_fuel; [exact Hkey |].
    unfold bind, get. rewrite Hseed. cbn [truthy]. now rewrite IHp.
  - apply cached_out_of_fuel; [exact Hpub |].
    unfold bind. now rewrite IHk.
Qed.

(** What the constructor leaves in an object made by [fromSeed]: the
    seed is under [_seedBytes]; there is no [seedBytes]. *)
Lemma fromSeed_props (seed : bytes) (o : Secp256k1.opts) :
  getprop (K256Class.fromSeed seed o) "_seedBytes" = VArr seed /\
  getprop (K256Class.fromSeed seed o) "seedBytes" = VUndef /\
  getprop (K256Class.fromSeed seed o) "_key" = VUndef /\
  getprop (K256Class.fromSeed seed o) "_pubKeyCanonicalBytes" = VUndef.
Proof.
  unfold K256Class.fromSeed, K256Class.constructor, KeyPair.constructor.
  repeat split; js_props; reflexivity.
Qed.

Lemma key_loops_fromSeed (fuel : nat) (seed : bytes) (o : Secp256k1.opts) :
  K256Class.key fuel (K256Class.fromSeed seed o) = OutOfFuel /\
  K256Class.pubKeyCanonicalBytes fuel (K256Class.fromSeed seed o) = OutOfFuel.
Proof.
  destruct (fromSeed_props seed o) as (_ & Hs & Hk & Hp).
  now apply key_loops.
Qed.

End K256ClassKey.

(** C10 (the code departs from it). On a K256Pair made by [fromSeed] in
    the decorator variant, key() tests [this.seedBytes], which the
    constructor never writes (it writes [this._seedBytes]); the test
    fails, key() calls pubKeyCanonicalBytes(), which calls key() again
    on the unchanged object. Whatever the allowed depth of nested calls,
    neither method returns. *)
Theorem K256Class_key_never_returns `{lib : EllipticSig}
  (fuel : nat) (seed : bytes) (o : Secp256k1.opts) :
  K256Class.key fuel (K256Class.fromSeed seed o) = OutOfFuel /\
  K256Class.pubKeyCanonicalBytes fuel (K256Class.fromSeed seed o) = OutOfFuel.
Proof. apply key_loops_fromSeed. Qed.

(** The same on a run: a thousand nested calls deep, key() of the pair
    made from sixteen zero bytes is still going on, whereas key() of the
    extendClass revision returns the root key at the first call. *)
Example K256Class_key_zero_entropy :
  @K256Class.key echo_lib 1000
    (K256Class.fromSeed (repeat 0 16) (Secp256k1.mkOpts (Some true) None)) =
  OutOfFuel.
Proof. vm_compute. reflexivity. Qed.

Example K256Ext_key_zero_entropy :
  exists this',
    @K256Ext.key echo_lib 1
      (K256Ext.fromSeed (repeat 0 16) (Secp256k1.mkOpts (Some true) None)) =
    Ret (VEcKey (EcPrivate
      0xD296B892B3A7964BD0CC882FC7C0BE948B6BBD8EB1EFF8C13942FCAABF1F3877))
      this'.
Proof. eexists. vm_compute. reflexivity. Qed.

(** C3 (the code departs from it). For a K256Pair of the decorator
    variant made from a seed, [K.sign(M)] never returns, at any depth of
    nested calls, because key() does not; so [K.verify(K.sign(M), M)]
    does not evaluate to true. *)
Theorem K256Class_sign_never_returns `{lib : EllipticSig}
  (fuel : nat) (seed : bytes) (o : Secp256k1.opts) (M : bytes) :
  K256Class.sign fuel M (K256Class.fromSeed seed o) = OutOfFuel /\
  K256Class.sign_then_verify fuel M (K256Class.fromSeed seed o) = OutOfFuel.
Proof.
  assert (S : K256Class.sign fuel M (K256Class.fromSeed seed o) = OutOfFuel).
  { unfold K256Class.sign, bind.
    now rewrite (proj1 (key_loops_fromSeed fuel seed o)). }
  split; [exact S |].
  unfold K256Class.sign_then_verify, bind. now rewrite S.
Qed.

(** ** verify and errors of the curve library *)

(** The try / catch of K256Pair.verify turns every throw into false:
    the method never throws. *)
Lemma K256Ext_verify_never_throws `{lib : EllipticSig}
  (fuel : nat) (signature message : bytes) (this : obj) (e : string)
  (this' : obj) :
  K256Ext.verify fuel signature message this <> Throw e this'.
Proof.
  unfold K256Ext.verify, try_catch.
  destruct (bind _ _ this); discriminate.
Qed.

Lemma K256Class_verify_never_throws `{lib : EllipticSig}
  (fuel : nat) (message signature : bytes) (this : obj) (e : string)
  (this' : obj) :
  K256Class.verify fuel message signature this <> Throw e this'.
Proof.
  unfold K256Class.verify, try_catch.
  destruct (bind _ _ this); discriminate.
Qed.

(** key() of an Ed25519Pair made from public bytes: the memoised
    publicBytes() gives back the constructor's [_publicBytes]. *)
Lemma Ed25519Ext_key_fromPublic (fuel : nat) (pub : bytes) :
  Ed25519Ext.key (S (S fuel)) (Ed25519Ext.fromPublic pub) =
  Ret (VEdKey (EdPublic (slice_from 1 pub)))
      (setprop (Ed25519Ext.fromPublic pub) "_key"
               (VEdKey (EdPublic (slice_from 1 pub)))).
Proof.
  unfold Ed25519Ext.fromPublic, Ed25519Ext.constructor, KeyPair.constructor.
  cbn [Ed25519Ext.key Ed25519Ext.publicBytes].
  unfold KeyPair.hasPrivateKey. js_run. reflexivity.
Qed.

(** C4 (the code departs from it). Ed25519Pair.verify has no try /
    catch: its outcome is the outcome of the library's verify, so an
    error thrown there is thrown to the caller, not turned into false.
    At the hex entry point of src/api.js, a signature string of odd
    length makes hexToBytes fail its assertion, and verify throws. *)
Theorem Ed25519_verify_propagates `{lib : EllipticSig}
  (fuel : nat) (pub signature message : bytes) :
  (exists this',
     Ed25519Ext.verify (S (S fuel)) signature message
                       (Ed25519Ext.fromPublic pub) =
     match eddsa_verify (slice_from 1 pub) message signature with
     | Ok b => Ret b this'
     | Error e => Throw e this'
     end) /\
  Api.verify "0" message
    "EDD3993CDC6647896C455F136648B7750723B011475547AF60691AA3D7438E021D" =
  Error "AssertionError".
Proof.
  split.
  - eexists. unfold Ed25519Ext.verify, bind.
    rewrite Ed25519Ext_key_fromPublic.
    unfold lift, edkey_verify. cbn [pubBytes].
    destruct (eddsa_verify _ _ _); reflexivity.
  - vm_compute. reflexivity.
Qed.

(** ** Hex strings and big numbers *)

Section Hex.
Import BN.

Lemma pow16 (w : nat) : 2 ^ (4 * Z.of_nat w) = 16 ^ Z.of_nat w.
Proof. rewrite Z.pow_mul_r by lia. reflexivity. Qed.

Lemma pow16_pos (w : nat) : 0 < 16 ^ Z.of_nat w.
Proof. apply Z.pow_pos_nonneg; lia. Qed.

Lemma nibble_range (x : Z) : 0 <= Z.land x 15 < 16.
Proof.
  change 15 with (Z.ones 4). rewrite Z.land_ones by lia.
  apply Z.mod_pos_bound. reflexivity.
Qed.

Lemma length_hex_digits (w : nat) (x : Z) : String.length (hex_digits w x) = w.
Proof. induction w as [|w IH]; simpl; [reflexivity | now rewrite IH]. Qed.

Lemma length_toUpperCase (s : string) :
  String.length (toUpperCase s) = String.length s.
Proof. induction s as [|c s IH]; simpl; [reflexivity | now rewrite IH]. Qed.

Lemma toUpperCase_app (s t : string) :
  toUpperCase (s ++ t) = (toUpperCase s ++ toUpperCase t)%string.
Proof. induction s as [|c s IH]; simpl; [reflexivity | now rewrite IH]. Qed.

(** Above the digits of the number there are only zeros. *)
Lemma hex_digits_lead (k w : nat) (x : Z) :
  0 <= x < 16 ^ Z.of_nat w ->
  hex_digits (k + w) x = (zeros k ++ hex_digits w x)%string.
Proof.
  intros Hx. induction k as [|k IH]; [reflexivity |].
  cbn [Nat.add hex_digits zeros String.append]. rewrite IH. f_equal.
  rewrite Z.shiftr_div_pow2, pow16 by lia.
  rewrite Z.div_small; [reflexivity |].
  split; [lia |]. apply Z.lt_le_trans with (16 ^ Z.of_nat w); [lia |].
  apply Z.pow_le_mono_r; lia.
Qed.

Lemma hex_len_pos (x : Z) : (1 <= hex_len x)%nat.
Proof.
  unfold hex_len. destruct (Z.eqb_spec x 0); [lia |].
  pose proof (Z.log2_nonneg x).
  assert (0 <= Z.log2 x / 4) by (apply Z.div_pos; lia). lia.
Qed.

Lemma hex_len_covers (x : Z) : 0 <= x -> x < 16 ^ Z.of_nat (hex_len x).
Proof.
  intros Hx. unfold hex_len. destruct (Z.eqb_spec x 0) as [->|N]; [reflexivity |].
  pose proof (Z.log2_nonneg x) as L0.
  assert (D : 0 <= Z.log2 x / 4) by (apply Z.div_pos; lia).
  rewrite Z2Nat.id by lia. rewrite <- (Z.pow_mul_r 2 4) by lia.
  destruct (Z.log2_spec x ltac:(lia)) as [_ U].
  eapply Z.lt_le_trans; [exact U |].
  apply Z.pow_le_mono_r; [lia |].
  pose proof (Z.mul_div_le (Z.log2 x) 4 ltac:(lia)).
  pose proof (Z.mod_pos_bound (Z.log2 x) 4 ltac:(lia)).
  pose proof (Z.div_mod (Z.log2 x) 4 ltac:(lia)). lia.
Qed.

Lemma hex_len_bound (w : nat) (x : Z) :
  (1 <= w)%nat -> 0 <= x < 16 ^ Z.of_nat w -> (hex_len x <= w)%nat.
Proof.
  intros Hw Hx. unfold hex_len. destruct (Z.eqb_spec x 0) as [->|N]; [lia |].
  assert (L : Z.log2 x < 4 * Z.of_nat w).
  { apply Z.log2_lt_pow2; [lia |]. rewrite pow16. lia. }
  assert (Z.log2 x / 4 < Z.of_nat w)
    by (apply Z.div_lt_upper_bound; lia).
  lia.
Qed.

(** A number below 2^256 prints, padded to a multiple of 64 digits, as
    exactly 64 digits. *)
Lemma toString16_padded_64 (x : Z) :
  0 <= x < 2 ^ 256 -> toString16_padded 64 x = hex_digits 64 x.
Proof.
  intros Hx. unfold toString16_padded, toString16.
  rewrite length_hex_digits.
  pose proof (hex_len_pos x) as L1.
  assert (L2 : (hex_len x <= 64)%nat)
    by (apply hex_len_bound; [lia | exact Hx]).
  pose proof (hex_len_covers x ltac:(lia)) as C.
  destruct (Nat.eq_dec (hex_len x) 64%nat) as [E|E].
  - rewrite E. reflexivity.
  - rewrite Nat.mod_small by lia.
    destruct (Nat.eqb_spec (hex_len x) 0%nat); [lia |].
    rewrite <- hex_digits_lead by lia. f_equal. lia.
Qed.

Lemma hex_value_hex_char (d : Z) :
  0 <= d < 16 -> hex_value (upper_char (hex_char d)) = Some d.
Proof.
  intros H.
  assert (E : d = Z.of_nat (Z.to_nat d)) by lia.
  assert (B : (Z.to_nat d < 16)%nat) by lia.
  rewrite E. generalize dependent (Z.to_nat d). intros k _ B.
  do 16 (destruct k as [|k]; [reflexivity |]). lia.
Qed.

(** Reading back [w] printed digits gives the number modulo 16^w. *)
Lemma parse_hex_digits (w : nat) : forall acc x,
  parse_hex acc (toUpperCase (hex_digits w x)) =
  Some (acc * 16 ^ Z.of_nat w + x mod 16 ^ Z.of_nat w).
Proof.
  induction w as [|w IH]; intros acc x.
  - simpl. rewrite Z.mod_1_r. f_equal. lia.
  - cbn [hex_digits toUpperCase parse_hex].
    rewrite hex_value_hex_char by apply nibble_range.
    rewrite IH. f_equal.
    change 15 with (Z.ones 4). rewrite Z.land_ones by lia.
    rewrite Z.shiftr_div_pow2, pow16 by lia.
    rewrite Nat2Z.inj_succ, Z.pow_succ_r by lia.
    pose proof (pow16_pos w).
    rewrite (Z.mul_comm 16 (16 ^ Z.of_nat w)).
    rewrite (Z.rem_mul_r x (16 ^ Z.of_nat w) 16) by lia.
    change (2 ^ 4) with 16. ring.
Qed.

Lemma byteToHex_table :
  forallb
    (fun b =>
       String.eqb (Utils.byteToHex b)
         (String (upper_char (hex_char (b / 16)))
                 (String (upper_char (hex_char (b mod 16))) EmptyString)))
    (map Z.of_nat (seq 0 256)) = true.
Proof. vm_compute. reflexivity. Qed.

(** A byte prints as its two nibbles. *)
Lemma byteToHex_nibbles (b : Z) :
  0 <= b < 256 ->
  Utils.byteToHex b =
  String (upper_char (hex_char (b / 16)))
         (String (upper_char (hex_char (b mod 16))) EmptyString).
Proof.
  intros H. apply String.eqb_eq.
  refine (proj1 (forallb_forall _ _) byteToHex_table b _).
  apply in_map_iff. exists (Z.to_nat b). split; [lia |].
  apply in_seq. lia.
Qed.

(** The hex digits of a number are the hex of its big-endian bytes. *)
Lemma hex_digits_bytesToHex (k : nat) (x : Z) :
  toUpperCase (hex_digits (2 * k) x) = Utils.bytesToHex (Z_to_be k x).
Proof.
  induction k as [|k IH]; [reflexivity |].
  replace (2 * S k)%nat with (S (S (2 * k))) by lia.
  cbn [hex_digits toUpperCase Z_to_be Utils.bytesToHex].
  rewrite IH.
  set (y := Z.shiftr x (8 * Z.of_nat k)).
  assert (Y1 : Z.shiftr x (4 * Z.of_nat (S (2 * k))) = Z.shiftr y 4).
  { unfold y. rewrite Z.shiftr_shiftr by lia. f_equal. lia. }
  assert (Y0 : Z.shiftr x (4 * Z.of_nat (2 * k)) = y).
  { unfold y. f_equal. lia. }
  rewrite Y1, Y0.
  change 255 with (Z.ones 8). change 15 with (Z.ones 4).
  rewrite !Z.land_ones, Z.shiftr_div_pow2 by lia.
  change (2 ^ 8) with 256. change (2 ^ 4) with 16.
  rewrite byteToHex_nibbles by (apply Z.mod_pos_bound; lia).
  cbn [String.append].
  replace (y mod 256 / 16) with (y / 16 mod 16)
    by (Z.div_mod_to_equations; lia).
  replace (y mod 256 mod 16) with (y mod 16)
    by (Z.div_mod_to_equations; lia).
  reflexivity.
Qed.

Lemma byteLength_bound (k : nat) (x : Z) :
  0 <= x < 2 ^ (8 * Z.of_nat k) -> (byteLength x <= k)%nat.
Proof.
  intros Hx. unfold byteLength. destruct (Z.eqb_spec x 0) as [->|N]; [lia |].
  assert (L : Z.log2 x < 8 * Z.of_nat k) by (apply Z.log2_lt_pow2; lia).
  assert (Z.log2 x / 8 < Z.of_nat k) by (apply Z.div_lt_upper_bound; lia).
  pose proof (Z.log2_nonneg x).
  assert (0 <= Z.log2 x / 8) by (apply Z.div_pos; lia).
  lia.
Qed.

(** The 33-byte form of a number below 2^256 is a zero byte and its
    32-byte form. *)
Lemma Z_to_be_33 (x : Z) :
  0 <= x < 2 ^ 256 -> Z_to_be 33 x = 0 :: Z_to_be 32 x.
Proof.
  intros Hx. change (Z_to_be 33 x) with
    (Z.land (Z.shiftr x 256) 255 :: Z_to_be 32 x).
  rewrite Z.shiftr_div_pow2, Z.div_small by lia. reflexivity.
Qed.

End Hex.

(** ** ed25519 derivation *)

Lemma ed_pubBytes_length (secret : bytes) :
  length (Elliptic.ed_pubBytes secret) = 32%nat.
Proof.
  unfold Elliptic.ed_pubBytes, Elliptic.ed_encodePoint, Elliptic.Z_to_le.
  destruct (Elliptic.ed_affine _) as [x y].
  now rewrite length_rev, length_Z_to_be.
Qed.

Lemma bytesToHex_ED (b : bytes) :
  ("ED" ++ Utils.bytesToHex b)%string = Utils.bytesToHex (0xED :: b).
Proof. reflexivity. Qed.

Lemma bytesToHex_00 (b : bytes) :
  ("00" ++ Utils.bytesToHex b)%string = Utils.bytesToHex (0x00 :: b).
Proof. reflexivity. Qed.

(** publicBytes() of an Ed25519Pair made from a seed. *)
Lemma Ed25519Ext_publicBytes_fromSeed (fuel : nat) (seed : bytes) :
  exists this',
    Ed25519Ext.publicBytes (S (S fuel)) (Ed25519Ext.fromSeed seed) =
    Ret (VArr (0xED :: Elliptic.ed_pubBytes
                         (Ed25519Ext.deriveEdKeyPairPrivate seed))) this'.
Proof.
  unfold Ed25519Ext.fromSeed, Ed25519Ext.constructor, KeyPair.constructor.
  cbn [Ed25519Ext.key Ed25519Ext.publicBytes].
  unfold KeyPair.hasPrivateKey, Ed25519Ext._privateKeySigningBytes.
  js_run. cbn [pubBytes]. eexists. reflexivity.
Qed.

(** privateBytes() of an Ed25519Pair made from a seed. *)
Lemma Ed25519Ext_privateBytes_fromSeed (seed : bytes) :
  exists this',
    Ed25519Ext.privateBytes (Ed25519Ext.fromSeed seed) =
    Ret (VArr (0xED :: Ed25519Ext.deriveEdKeyPairPrivate seed)) this'.
Proof.
  unfold Ed25519Ext.fromSeed, Ed25519Ext.constructor, KeyPair.constructor,
    Ed25519Ext.privateBytes, Ed25519Ext._privateKeySigningBytes.
  js_run. eexists. reflexivity.
Qed.

(** C7. For every seed, ed25519 derivation is single-stage: the private
    signing secret is the first 32 bytes of the SHA-512 digest of the
    seed bytes, and the public-key encoding is the byte 0xED followed by
    the 32-byte EdDSA public point of that secret; this holds for the
    key-pair class and for deriveKeypair of src/api.js, whose strings
    are the hex of these bytes. *)
Theorem ed25519_single_stage (fuel : nat) (seed : bytes) :
  let secret := firstn 32 (HashJs.sha512 seed) in
  Ed25519Ext.deriveEdKeyPairPrivate seed = secret /\
  length secret = 32%nat /\
  length (Elliptic.ed_pubBytes secret) = 32%nat /\
  (exists this',
     Ed25519Ext.publicBytes (S (S fuel)) (Ed25519Ext.fromSeed seed) =
     Ret (VArr (0xED :: Elliptic.ed_pubBytes secret)) this') /\
  Api.ed25519_deriveKeypair seed =
  Ok (Api.mkKeypair
        (Utils.bytesToHex (0xED :: secret))
        (Utils.bytesToHex (0xED :: Elliptic.ed_pubBytes secret))).
Proof.
  intros secret.
  assert (E : Ed25519Ext.deriveEdKeyPairPrivate seed = secret) by reflexivity.
  split; [exact E |]. split; [| split; [| split]].
  - unfold secret. rewrite length_firstn, sha512_length. reflexivity.
  - apply ed_pubBytes_length.
  - rewrite <- E. apply Ed25519Ext_publicBytes_fromSeed.
  - reflexivity.
Qed.

(** The ed25519 key pair that the repository's tests expect for the
    phrase "niq". *)
Example ed25519_keypair_niq :
  Api.ed25519_deriveKeypair (Utils.seedFromPhrase [110; 105; 113]) =
  Ok (Api.mkKeypair
        "EDC99B2B037295A6A0F8DBFEA341ED1FC5A7BE6882D7E8DC287C2F4498B87A933A"
        "EDD3993CDC6647896C455F136648B7750723B011475547AF60691AA3D7438E021D").
Proof.
  unfold Api.ed25519_deriveKeypair. cbv zeta.
  set (raw := Sha512.first256 _). vm_compute in raw. subst raw.
  cbn [pubBytes]. unfold Elliptic.ed_pubBytes, Elliptic.ed_encodePoint.
  set (k := Elliptic.ed_privScalar _). vm_compute in k. subst k.
  rewrite Fast_ed_base_mul. vm_compute. reflexivity.
Qed.

(** ** Private-key encodings *)

Lemma as_flag_of_flag (f : option bool) : as_flag (of_flag f) = f.
Proof. destruct f as [[|]|]; reflexivity. Qed.

Lemma order_below_2_256 : Elliptic.n < 2 ^ 256.
Proof. reflexivity. Qed.

(** privateBytes() of a K256Pair (extendClass variant) made from a
    seed: the 32 big-endian bytes of the derived scalar. *)
Lemma K256Ext_privateBytes_fromSeed (seed : bytes) (o : Secp256k1.opts)
  (d : Z) :
  Secp256k1.deriveSecret seed
    (Secp256k1.mkOpts (Secp256k1.validator o) None) = Ok d ->
  exists this',
    K256Ext.privateBytes (K256Ext.fromSeed seed o) =
    Ret (VArr (Z_to_be 32 d)) this'.
Proof.
  intros H.
  assert (B : (BN.byteLength d <= 32)%nat).
  { apply byteLength_bound. apply deriveSecret_bound in H.
    pose proof order_below_2_256. change (8 * Z.of_nat 32) with 256. lia. }
  unfold K256Ext.fromSeed, K256Ext.constructor, KeyPair.constructor,
    K256Ext.privateBytes, K256Ext._private, K256Ext.derivePrivate.
  js_run. rewrite as_flag_of_flag, H. js_run.
  unfold BN.toArray. cbn [Nat.eqb].
  destruct (Nat.leb_spec (BN.byteLength d) 32); [| lia].
  js_run. eexists. reflexivity.
Qed.

(** deriveKeypair of src/api.js for secp256k1: the private key is the
    hex of a zero byte and the 32-byte scalar. *)
Lemma secp256k1_deriveKeypair_eq (entropy : bytes) (o : Secp256k1.opts)
  (d : Z) :
  Secp256k1.deriveSecret entropy o = Ok d ->
  Api.secp256k1_deriveKeypair entropy o =
  (encoded <- Elliptic.encodeCompressed (Elliptic.mul Elliptic.g d);;
   Ok (Api.mkKeypair (Utils.bytesToHex (0x00 :: Z_to_be 32 d))
                     (Utils.bytesToHex encoded))).
Proof.
  intros H.
  assert (B : 0 <= d < 2 ^ 256).
  { apply deriveSecret_bound in H. pose proof order_below_2_256. lia. }
  unfold Api.secp256k1_deriveKeypair. rewrite H. cbn [rbind].
  rewrite toString16_padded_64 by exact B.
  set (toUpperCase_hex := fun x => BN.toUpperCase (BN.hex_digits 64 x)).
  change (BN.toUpperCase (BN.hex_digits 64 d)) with (toUpperCase_hex d).
  unfold BN.of_hex.
  change (String.append "00" (toUpperCase_hex d))
    with (String "0" (String "0" (toUpperCase_hex d))).
  change (BN.parse_hex 0 (String "0" (String "0" (toUpperCase_hex d))))
    with (BN.parse_hex 0 (toUpperCase_hex d)).
  unfold toUpperCase_hex.
  rewrite parse_hex_digits.
  rewrite Z.mod_small by (change (16 ^ Z.of_nat 64) with (2 ^ 256); exact B).
  change (0 * 16 ^ Z.of_nat 64 + d) with d. cbn [rbind getPublic].
  change 64%nat with (2 * 32)%nat.
  rewrite hex_digits_bytesToHex. reflexivity.
Qed.

(** The secp256k1 key pair for sixteen zero bytes of entropy: the
    private and public keys that the repository's tests expect, the
    private key with the 00 prefix of src/api.js. *)
Example secp256k1_keypair_zero_entropy :
  Api.secp256k1_deriveKeypair (repeat 0 16) Secp256k1.no_opts =
  Ok (Api.mkKeypair
        "002512BBDFDBB77510883B7DCCBEF270B86DEAC8B64AC762873D75A1BEE6298665"
        "0390A196799EE412284A5D80BF78C3E84CBB80E1437A0AECD9ADF94D7FEAAFA284").
Proof.
  rewrite (secp256k1_deriveKeypair_eq _ _ _ deriveSecret_zero_entropy).
  rewrite public_key_zero_entropy. vm_compute. reflexivity.
Qed.

(** hexToBytes on a string of [2 k] hex digits that reads as [x]. *)
Lemma hexToBytes_eq (a : string) (x : Z) (k : nat) :
  String.length a = (2 * k)%nat -> (1 <= k)%nat ->
  BN.of_hex a = Ok x -> (BN.byteLength x <= k)%nat ->
  Utils.hexToBytes a = Ok (Z_to_be k x).
Proof.
  intros L K P BL. unfold Utils.hexToBytes. rewrite L, P.
  rewrite (Nat.mul_comm 2 k), Nat.Div0.mod_mul, Nat.div_mul by lia.
  cbn [Nat.eqb negb rbind]. unfold BN.toArray.
  destruct (Nat.eqb_spec k 0); [lia |].
  destruct (Nat.leb_spec (BN.byteLength x) k); [reflexivity | lia].
Qed.

(** Decoding the hex of a zero byte and a 32-byte scalar gives the 33
    bytes back. *)
Lemma hexToBytes_private_key (d : Z) :
  0 <= d < 2 ^ 256 ->
  Utils.hexToBytes (Utils.bytesToHex (0x00 :: Z_to_be 32 d)) =
  Ok (0x00 :: Z_to_be 32 d).
Proof.
  intros B.
  rewrite <- bytesToHex_00, <- (hex_digits_bytesToHex 32 d).
  rewrite <- Z_to_be_33 by exact B.
  apply hexToBytes_eq.
  - change (String.length
              (String "0" (String "0"
                 (BN.toUpperCase (BN.hex_digits 64 d)))) = 66%nat).
    cbn [String.length].
    now rewrite length_toUpperCase, length_hex_digits.
  - lia.
  - unfold BN.of_hex.
    change (BN.parse_hex 0
              ("00" ++ BN.toUpperCase (BN.hex_digits (2 * 32) d)))
      with (BN.parse_hex 0 (BN.toUpperCase (BN.hex_digits 64 d))).
    rewrite parse_hex_digits.
    rewrite Z.mod_small
      by (change (16 ^ Z.of_nat 64) with (2 ^ 256); exact B).
    reflexivity.
  - apply byteLength_bound. change (8 * Z.of_nat 33) with 264.
    assert (2 ^ 256 < 2 ^ 264) by reflexivity. lia.
Qed.

(** C8, as the code has it. The private key that deriveKeypair of
    src/api.js returns is the hex of 33 bytes: 0x00 and the 32-byte
    big-endian scalar for secp256k1, 0xED and the 32-byte secret hashed
    from the seed for ed25519; privateBytes() of an Ed25519Pair made
    from a seed is these 33 bytes too. privateBytes() of a K256Pair
    made from a seed is the 32-byte big-endian scalar alone, without a
    prefix byte. *)
Theorem private_key_encodings (seed : bytes) (o : Secp256k1.opts) (d d0 : Z) :
  Secp256k1.deriveSecret seed o = Ok d ->
  Secp256k1.deriveSecret seed
    (Secp256k1.mkOpts (Secp256k1.validator o) None) = Ok d0 ->
  let secret := firstn 32 (HashJs.sha512 seed) in
  (Api.secp256k1_deriveKeypair seed o =
     (encoded <- Elliptic.encodeCompressed (Elliptic.mul Elliptic.g d);;
      Ok (Api.mkKeypair (Utils.bytesToHex (0x00 :: Z_to_be 32 d))
                        (Utils.bytesToHex encoded))) /\
   Utils.hexToBytes (Utils.bytesToHex (0x00 :: Z_to_be 32 d)) =
     Ok (0x00 :: Z_to_be 32 d) /\
   length (0x00 :: Z_to_be 32 d) = 33%nat) /\
  ((exists pub,
      Api.ed25519_deriveKeypair seed =
      Ok (Api.mkKeypair (Utils.bytesToHex (0xED :: secret)) pub)) /\
   (exists this',
      Ed25519Ext.privateBytes (Ed25519Ext.fromSeed seed) =
      Ret (VArr (0xED :: secret)) this') /\
   length (0xED :: secret) = 33%nat) /\
  ((exists this',
      K256Ext.privateBytes (K256Ext.fromSeed seed o) =
      Ret (VArr (Z_to_be 32 d0)) this') /\
   length (Z_to_be 32 d0) = 32%nat).
Proof.
  intros H H0 secret.
  assert (B : 0 <= d < 2 ^ 256).
  { apply deriveSecret_bound in H. pose proof order_below_2_256. lia. }
  split; [| split].
  - split; [now apply secp256k1_deriveKeypair_eq |].
    split; [now apply hexToBytes_private_key |].
    cbn [length]. now rewrite length_Z_to_be.
  - split; [eexists; reflexivity |].
    split; [apply Ed25519Ext_privateBytes_fromSeed |].
    cbn [length]. unfold secret.
    rewrite length_firstn, sha512_length. reflexivity.
  - split; [now apply K256Ext_privateBytes_fromSeed |].
    apply length_Z_to_be.
Qed.

Lemma private_key_encodings_witness :
  Secp256k1.deriveSecret (repeat 0 16) (Secp256k1.mkOpts (Some true) None) =
    Ok 0xD296B892B3A7964BD0CC882FC7C0BE948B6BBD8EB1EFF8C13942FCAABF1F3877 /\
  length (Z_to_be 32
    0xD296B892B3A7964BD0CC882FC7C0BE948B6BBD8EB1EFF8C13942FCAABF1F3877)
  = 32%nat.
Proof.
  assert (H : Secp256k1.deriveSecret (repeat 0 16)
                (Secp256k1.mkOpts (Some true) None) =
    Ok 0xD296B892B3A7964BD0CC882FC7C0BE948B6BBD8EB1EFF8C13942FCAABF1F3877)
    by (vm_compute; reflexivity).
  split; [exact H |].
  exact (proj2 (proj2 (proj2
           (private_key_encodings
              (repeat 0 16) (Secp256k1.mkOpts (Some true) None) _ _ H H)))).
Defined.

(** The claim of 33 bytes fails for K256Pair.privateBytes(): for the
    root key pair of sixteen zero bytes it returns 32 bytes, the first
    of them 0xD2. *)
Lemma K256Pair_privateBytes_not_33 :
  ~ exists b this',
      K256Ext.privateBytes
        (K256Ext.fromSeed (repeat 0 16) (Secp256k1.mkOpts (Some true) None)) =
      Ret (VArr b) this' /\
      length b = 33%nat.
Proof.
  intros (b & this' & E & L).
  assert (H : Secp256k1.deriveSecret (repeat 0 16)
                (Secp256k1.mkOpts (Some true) None) =
    Ok 0xD296B892B3A7964BD0CC882FC7C0BE948B6BBD8EB1EFF8C13942FCAABF1F3877)
    by (vm_compute; reflexivity).
  destruct (K256Ext_privateBytes_fromSeed
              (repeat 0 16) (Secp256k1.mkOpts (Some true) None) _ H)
    as [this1 E1].
  rewrite E1 in E. injection E as Eb _.
  rewrite <- Eb in L. clear - L. vm_compute in L. discriminate L.
Qed.

(** ** The algorithm of a key *)

Lemma key_type_of_spec (b : bytes) :
  (length b = 33%nat /\ nth_error b 0 = Some 0xED ->
   Utils.key_type_of b = ed25519) /\
  (~ (length b = 33%nat /\ nth_error b 0 = Some 0xED) ->
   Utils.key_type_of b = secp256k1).
Proof.
  unfold Utils.key_type_of. split.
  - intros [L H]. rewrite L. destruct b as [|x b]; [discriminate |].
    injection H as ->. reflexivity.
  - intros N. destruct (Nat.eqb_spec (length b) 33) as [L|L];
      [| reflexivity].
    destruct b as [|x b]; [discriminate |]. cbn [nth andb].
    destruct (Z.eqb_spec x 0xED) as [->|]; [| reflexivity].
    elim N. split; [exact L | reflexivity].
Qed.

(** C9. The top-level sign and verify take the algorithm from the
    decoded key bytes alone: when the bytes are exactly 33 long and the
    first is 0xED the ed25519 routines are used, and in every other case
    the secp256k1 ones. This holds for sign and verify of src/api.js, on
    the bytes decoded from the hex key, and for sign and verify of
    src/index.js, which build the key pair of the class that parseKey
    selects. *)
Theorem algorithm_from_key_bytes (key : string) (b : bytes) :
  Utils.hexToBytes key = Ok b ->
  (length b = 33%nat /\ nth_error b 0 = Some 0xED ->
   Api.getAlgorithmFromKey key = Ok ed25519 /\
   fst (Utils.parseKey b) = ed25519 /\
   forall (lib : EllipticSig) (fuel : nat) (signature : string)
          (sig message : bytes),
     Api.sign message key = Api.ed25519_sign message key /\
     Api.verify signature message key =
       Api.ed25519_verify signature message key /\
     Index.sign fuel message b =
       Ed25519Ext.sign fuel message (Ed25519Ext.fromPrivate b) /\
     Index.verify fuel sig message b =
       Ed25519Ext.verify fuel sig message (Ed25519Ext.fromPublic b)) /\
  (~ (length b = 33%nat /\ nth_error b 0 = Some 0xED) ->
   Api.getAlgorithmFromKey key = Ok secp256k1 /\
   fst (Utils.parseKey b) = secp256k1 /\
   forall (lib : EllipticSig) (fuel : nat) (signature : string)
          (sig message : bytes),
     Api.sign message key = Api.secp256k1_sign message key /\
     Api.verify signature message key =
       Api.secp256k1_verify signature message key /\
     Index.sign fuel message b =
       K256Ext.sign fuel message (K256Ext.fromPrivate b) /\
     Index.verify fuel sig message b =
       K256Ext.verify fuel sig message (K256Ext.fromPublic b)).
Proof.
  intros H.
  destruct (key_type_of_spec b) as [Ed Secp].
  split; intros C; [specialize (Ed C) | specialize (Secp C)].
  - assert (A : Api.getAlgorithmFromKey key = Ok ed25519)
      by (unfold Api.getAlgorithmFromKey; rewrite H; cbn [rbind]; now rewrite Ed).
    split; [exact A |]. split; [exact Ed |].
    intros lib fuel signature sig message.
    unfold Api.sign, Api.verify, Index.sign, Index.verify, Utils.parseKey.
    rewrite A, Ed. repeat split; reflexivity.
  - assert (A : Api.getAlgorithmFromKey key = Ok secp256k1)
      by (unfold Api.getAlgorithmFromKey; rewrite H; cbn [rbind];
          now rewrite Secp).
    split; [exact A |]. split; [exact Secp |].
    intros lib fuel signature sig message.
    unfold Api.sign, Api.verify, Index.sign, Index.verify, Utils.parseKey.
    rewrite A, Secp. repeat split; reflexivity.
Qed.

Lemma algorithm_from_key_bytes_witness :
  Utils.hexToBytes
    "EDD3993CDC6647896C455F136648B7750723B011475547AF60691AA3D7438E021D" =
  Ok [0xED; 0xD3; 0x99; 0x3C; 0xDC; 0x66; 0x47; 0x89; 0x6C; 0x45; 0x5F;
      0x13; 0x66; 0x48; 0xB7; 0x75; 0x07; 0x23; 0xB0; 0x11; 0x47; 0x55;
      0x47; 0xAF; 0x60; 0x69; 0x1A; 0xA3; 0xD7; 0x43; 0x8E; 0x02; 0x1D] /\
  Api.getAlgorithmFromKey
    "EDD3993CDC6647896C455F136648B7750723B011475547AF60691AA3D7438E021D" =
  Ok ed25519.
Proof.
  assert (H : Utils.hexToBytes
    "EDD3993CDC6647896C455F136648B7750723B011475547AF60691AA3D7438E021D" =
  Ok [0xED; 0xD3; 0x99; 0x3C; 0xDC; 0x66; 0x47; 0x89; 0x6C; 0x45; 0x5F;
      0x13; 0x66; 0x48; 0xB7; 0x75; 0x07; 0x23; 0xB0; 0x11; 0x47; 0x55;
      0x47; 0xAF; 0x60; 0x69; 0x1A; 0xA3; 0xD7; 0x43; 0x8E; 0x02; 0x1D])
    by (vm_compute; reflexivity).
  split; [exact H |].
  exact (proj1 (proj1 (algorithm_from_key_bytes _ _ H)
                      (conj eq_refl eq_refl))).
Defined.

(** ** Sign and verify on the classes that reach their key *)

(** Reading back the big-endian bytes of a number. *)
Lemma fold_Z_to_be (n : nat) : forall acc x,
  fold_left (fun a b => a * 256 + b) (Z_to_be n x) acc =
  acc * 256 ^ Z.of_nat n + x mod 256 ^ Z.of_nat n.
Proof.
  induction n as [|n IH]; intros acc x.
  - simpl. rewrite Z.mod_1_r. lia.
  - cbn [Z_to_be fold_left]. rewrite IH.
    change 255 with (Z.ones 8). rewrite Z.land_ones by lia.
    rewrite Z.shiftr_div_pow2 by lia.
    rewrite (Z.pow_mul_r 2 8) by lia. change (2 ^ 8) with 256.
    rewrite Nat2Z.inj_succ, Z.pow_succ_r by lia.
    assert (0 < 256 ^ Z.of_nat n) by (apply Z.pow_pos_nonneg; lia).
    rewrite (Z.mul_comm 256 (256 ^ Z.of_nat n)).
    rewrite (Z.rem_mul_r x (256 ^ Z.of_nat n) 256) by lia.
    ring.
Qed.

Lemma be_to_Z_to_be_32 (d : Z) :
  0 <= d < 2 ^ 256 -> be_to_Z (Z_to_be 32 d) = d.
Proof.
  intros B. unfold be_to_Z. rewrite fold_Z_to_be.
  change (256 ^ Z.of_nat 32) with (2 ^ 256).
  rewrite Z.mod_small by exact B. reflexivity.
Qed.

(** The contract asked of the library can be met. *)
Lemma library_contract_echo : library_contract echo_lib.
Proof.
  repeat split.
  - intros d h s _ [= <-]. cbn. f_equal. now apply bool_decide_eq_true_2.
  - intros d h s b _ [= <-] _. exists Elliptic.Inf. split; [reflexivity |].
    cbn. f_equal. now apply bool_decide_eq_true_2.
  - intros secret m s [= <-]. cbn. f_equal. now apply bool_decide_eq_true_2.
Qed.

Section RoundTrip.
Context {lib : EllipticSig}.

Hypothesis contract : library_contract lib.

Lemma ecdsa_correct (d : Z) (h s : bytes) :
  0 < d < Elliptic.n ->
  ecdsa_sign d h = Ok s ->
  ecdsa_verify (Elliptic.mul Elliptic.g d) h (SigBytes s) = Ok true.
Proof using contract. apply contract. Qed.

Lemma ecdsa_correct_public (d : Z) (h s b : bytes) :
  0 < d < Elliptic.n ->
  ecdsa_sign d h = Ok s ->
  Elliptic.encodeCompressed (Elliptic.mul Elliptic.g d) = Ok b ->
  exists P, ec_keyFromPublic b = Ok P /\
            ecdsa_verify P h (SigBytes s) = Ok true.
Proof using contract. apply contract. Qed.

Lemma eddsa_correct (secret m s : bytes) :
  eddsa_sign secret m = Ok s ->
  eddsa_verify (Elliptic.ed_pubBytes secret) m s = Ok true.
Proof using contract. apply contract. Qed.

(** key() of the extendClass variant returns on a pair made from a
    seed: its test reads [_seedBytes] through hasPrivateKey(). *)
Lemma K256Ext_key_fromSeed (fuel : nat) (seed : bytes) (o : Secp256k1.opts)
  (d : Z) :
  Secp256k1.deriveSecret seed
    (Secp256k1.mkOpts (Secp256k1.validator o) None) = Ok d ->
  K256Ext.key (S fuel) (K256Ext.fromSeed seed o) =
  Ret (VEcKey (EcPrivate d))
      (setprop (K256Ext.fromSeed seed o) "_key" (VEcKey (EcPrivate d))).
Proof using Type.
  intros H.
  unfold K256Ext.fromSeed, K256Ext.constructor, KeyPair.constructor.
  cbn [K256Ext.key].
  unfold KeyPair.hasPrivateKey, K256Ext._private, K256Ext.derivePrivate.
  js_run. rewrite as_flag_of_flag, H. reflexivity.
Qed.

(** Once key() has stored its value, every later call returns it. *)
Lemma K256Ext_key_memo (fuel : nat) (this : obj) (k : eckey) :
  K256Ext.key (S fuel) (setprop this "_key" (VEcKey k)) =
  Ret (VEcKey k) (setprop this "_key" (VEcKey k)).
Proof using Type.
  cbn [K256Ext.key]. unfold cached. cbn [String.append].
  now rewrite getprop_setprop_eq.
Qed.

(** K256Pair (extendClass variant) made from a seed:
    [K.verify(K.sign(M), M)] is true whenever the library signs. *)
Lemma K256Ext_sign_then_verify (fuel : nat) (seed : bytes)
  (o : Secp256k1.opts) (d : Z) (M s : bytes) :
  Secp256k1.deriveSecret seed
    (Secp256k1.mkOpts (Secp256k1.validator o) None) = Ok d ->
  d <> 0 ->
  ecdsa_sign d (K256Ext.hashMessage M) = Ok s ->
  exists this',
    K256Ext.sign (S fuel) M (K256Ext.fromSeed seed o) = Ret s this' /\
    K256Ext.sign_then_verify (S fuel) M (K256Ext.fromSeed seed o) =
    Ret true this'.
Proof using contract.
  intros H N Hs.
  assert (B : 0 < d < Elliptic.n) by (apply deriveSecret_bound in H; lia).
  assert (E : K256Ext.sign (S fuel) M (K256Ext.fromSeed seed o) =
              Ret s (setprop (K256Ext.fromSeed seed o) "_key"
                             (VEcKey (EcPrivate d)))).
  { unfold K256Ext.sign, bind. rewrite (K256Ext_key_fromSeed _ _ _ _ H).
    unfold key_sign_DER. rewrite Hs. reflexivity. }
  eexists. split; [exact E |].
  unfold K256Ext.sign_then_verify, bind. rewrite E.
  unfold K256Ext.verify, try_catch, bind. rewrite K256Ext_key_memo.
  unfold key_verify. cbn [getPublic].
  rewrite (ecdsa_correct _ _ _ B Hs). reflexivity.
Qed.

(** key() of an Ed25519Pair made from a seed. *)
Lemma Ed25519Ext_key_fromSeed (fuel : nat) (seed : bytes) :
  exists this',
    Ed25519Ext.key (S fuel) (Ed25519Ext.fromSeed seed) =
      Ret (VEdKey (EdSecret (Ed25519Ext.deriveEdKeyPairPrivate seed))) this' /\
    getprop this' "_key" =
      VEdKey (EdSecret (Ed25519Ext.deriveEdKeyPairPrivate seed)).
Proof using Type.
  unfold Ed25519Ext.fromSeed, Ed25519Ext.constructor, KeyPair.constructor.
  cbn [Ed25519Ext.key].
  unfold KeyPair.hasPrivateKey, Ed25519Ext._privateKeySigningBytes.
  js_run. eexists. split; [reflexivity |]. now rewrite getprop_setprop_eq.
Qed.

(** key() of an Ed25519Pair made from private bytes: the secret is the
    bytes after the prefix. *)
Lemma Ed25519Ext_key_fromPrivate (fuel : nat) (privateKey : bytes) :
  exists this',
    Ed25519Ext.key (S fuel) (Ed25519Ext.fromPrivate privateKey) =
      Ret (VEdKey (EdSecret (slice_from 1 privateKey))) this' /\
    getprop this' "_key" = VEdKey (EdSecret (slice_from 1 privateKey)).
Proof using Type.
  unfold Ed25519Ext.fromPrivate, Ed25519Ext.constructor, KeyPair.constructor.
  cbn [Ed25519Ext.key].
  unfold KeyPair.hasPrivateKey, Ed25519Ext._privateKeySigningBytes.
  js_run. eexists. split; [reflexivity |]. now rewrite getprop_setprop_eq.
Qed.

Lemma Ed25519Ext_key_memo (fuel : nat) (this : obj) (k : edkey) :
  getprop this "_key" = VEdKey k ->
  Ed25519Ext.key (S fuel) this = Ret (VEdKey k) this.
Proof using Type.
  intros H. cbn [Ed25519Ext.key]. unfold cached.
  change (getprop this ("_" ++ "key")) with (getprop this "_key").
  now rewrite H.
Qed.

(** Ed25519Pair made from a seed or from private bytes:
    [K.verify(K.sign(M), M)] is true whenever the library signs. *)
Lemma Ed25519Ext_sign_then_verify (fuel : nat) (seed M s : bytes) :
  eddsa_sign (Ed25519Ext.deriveEdKeyPairPrivate seed) M = Ok s ->
  exists this',
    Ed25519Ext.sign (S fuel) M (Ed25519Ext.fromSeed seed) = Ret s this' /\
    Ed25519Ext.sign_then_verify (S fuel) M (Ed25519Ext.fromSeed seed) =
    Ret true this'.
Proof using contract.
  intros Hs. destruct (Ed25519Ext_key_fromSeed fuel seed) as (this' & K & G).
  assert (E : Ed25519Ext.sign (S fuel) M (Ed25519Ext.fromSeed seed) =
              Ret s this').
  { unfold Ed25519Ext.sign, bind. rewrite K. unfold edkey_sign.
    rewrite Hs. reflexivity. }
  exists this'. split; [exact E |].
  unfold Ed25519Ext.sign_then_verify, bind. rewrite E.
  unfold Ed25519Ext.verify, bind. rewrite (Ed25519Ext_key_memo _ _ _ G).
  unfold edkey_verify. cbn [pubBytes].
  rewrite (eddsa_correct _ _ _ Hs). reflexivity.
Qed.

Lemma Ed25519Ext_sign_then_verify_fromPrivate (fuel : nat)
  (privateKey M s : bytes) :
  eddsa_sign (slice_from 1 privateKey) M = Ok s ->
  exists this',
    Ed25519Ext.sign_then_verify (S fuel) M
      (Ed25519Ext.fromPrivate privateKey) = Ret true this'.
Proof using contract.
  intros Hs.
  destruct (Ed25519Ext_key_fromPrivate fuel privateKey) as (this' & K & G).
  exists this'.
  unfold Ed25519Ext.sign_then_verify, Ed25519Ext.sign, bind. rewrite K.
  unfold edkey_sign. rewrite Hs. cbn [lift ret].
  unfold Ed25519Ext.verify, bind. rewrite (Ed25519Ext_key_memo _ _ _ G).
  unfold edkey_verify. cbn [pubBytes].
  rewrite (eddsa_correct _ _ _ Hs). reflexivity.
Qed.

(** publicBytes() of a K256Pair (extendClass variant) made from a seed:
    the compressed encoding of the public point. *)
Lemma K256Ext_publicBytes_fromSeed (fuel : nat) (seed : bytes)
  (o : Secp256k1.opts) (d : Z) (b : bytes) :
  Secp256k1.deriveSecret seed
    (Secp256k1.mkOpts (Secp256k1.validator o) None) = Ok d ->
  Elliptic.encodeCompressed (Elliptic.mul Elliptic.g d) = Ok b ->
  exists this',
    K256Ext.publicBytes (S (S fuel)) (K256Ext.fromSeed seed o) =
    Ret (VArr b) this'.
Proof using Type.
  intros H E.
  change (K256Ext.publicBytes (S (S fuel)))
    with (cached "publicBytes"
            (bind (K256Ext.key (S fuel))
                  (fun k => lift (key_encodeCompressed k)))).
  unfold cached, bind.
  assert (U : getprop (K256Ext.fromSeed seed o) ("_" ++ "publicBytes")
              = VUndef).
  { unfold K256Ext.fromSeed, K256Ext.constructor, KeyPair.constructor.
    cbn [String.append]. js_props. reflexivity. }
  rewrite U, (K256Ext_key_fromSeed _ _ _ _ H).
  unfold key_encodeCompressed. cbn [getPublic]. rewrite E.
  cbn [rbind lift ret]. eexists. reflexivity.
Qed.

(** The compressed encoding of a point is never taken for an ed25519
    key: its first byte is 02 or 03. *)
Lemma encodeCompressed_type (P : Elliptic.point) (b : bytes) :
  Elliptic.encodeCompressed P = Ok b -> Utils.key_type_of b = secp256k1.
Proof using Type.
  destruct P as [|x y]; [discriminate |]. intros [= <-].
  unfold Utils.key_type_of. cbn [nth].
  destruct (Z.even y); cbn [Z.eqb Pos.eqb]; now rewrite andb_false_r.
Qed.

(** The top-level sign and verify of src/index.js, applied to the
    private and public bytes that a K256Pair made from a seed exports,
    sign and verify like the pair itself. *)
Lemma Index_secp256k1_exported_keys (fuel : nat) (d : Z) (M s b : bytes) :
  0 < d < Elliptic.n ->
  Elliptic.encodeCompressed (Elliptic.mul Elliptic.g d) = Ok b ->
  ecdsa_sign d (K256Ext.hashMessage M) = Ok s ->
  (exists this', Index.sign (S fuel) M (Z_to_be 32 d) = Ret s this') /\
  (exists this', Index.verify (S (S fuel)) s M b = Ret true this').
Proof using contract.
  intros B E Hs. split.
  - unfold Index.sign, Utils.parseKey, Utils.key_type_of.
    rewrite length_Z_to_be. cbn [Nat.eqb andb].
    unfold K256Ext.sign, bind, K256Ext.fromPrivate, K256Ext.constructor,
      KeyPair.constructor.
    cbn [K256Ext.key]. unfold KeyPair.hasPrivateKey, K256Ext._private.
    js_run. cbn [keyFromPrivate]. js_run.
    rewrite be_to_Z_to_be_32 by (pose proof order_below_2_256; lia).
    unfold key_sign_DER. rewrite Hs. eexists. reflexivity.
  - unfold Index.verify, Utils.parseKey.
    rewrite (encodeCompressed_type _ _ E).
    unfold K256Ext.verify, try_catch, bind, K256Ext.fromPublic,
      K256Ext.constructor, KeyPair.constructor.
    cbn [K256Ext.key K256Ext.publicBytes]. unfold KeyPair.hasPrivateKey.
    js_run. unfold keyFromPublic. cbn [as_bytes rbind].
    destruct (ecdsa_correct_public _ _ _ _ B Hs E) as (P & D & V).
    rewrite D. cbn [rbind]. js_run.
    unfold key_verify. cbn [getPublic].
    rewrite V. eexists. reflexivity.
Qed.

(** The same for the bytes that an Ed25519Pair made from a seed
    exports. *)
Lemma Index_ed25519_exported_keys (fuel : nat) (seed M s : bytes) :
  let secret := Ed25519Ext.deriveEdKeyPairPrivate seed in
  eddsa_sign secret M = Ok s ->
  (exists this', Index.sign (S fuel) M (0xED :: secret) = Ret s this') /\
  (exists this',
     Index.verify (S (S fuel)) s M (0xED :: Elliptic.ed_pubBytes secret) =
     Ret true this').
Proof using contract.
  intros secret Hs. subst secret.
  set (secret := Ed25519Ext.deriveEdKeyPairPrivate seed) in *.
  assert (L : length secret = 32%nat) by apply first256_length.
  split.
  - unfold Index.sign, Utils.parseKey, Utils.key_type_of.
    cbn [length nth]. rewrite L. cbn [Nat.eqb Z.eqb Pos.eqb andb].
    destruct (Ed25519Ext_key_fromPrivate fuel (0xED :: secret))
      as (this' & K & _).
    unfold Ed25519Ext.sign, bind. rewrite K.
    change (slice_from 1 (0xED :: secret)) with secret.
    unfold edkey_sign. rewrite Hs. eexists. reflexivity.
  - unfold Index.verify, Utils.parseKey, Utils.key_type_of.
    cbn [length nth]. rewrite ed_pubBytes_length.
    cbn [Nat.eqb Z.eqb Pos.eqb andb].
    unfold Ed25519Ext.verify, bind. rewrite Ed25519Ext_key_fromPublic.
    change (slice_from 1 (0xED :: Elliptic.ed_pubBytes secret))
      with (Elliptic.ed_pubBytes secret).
    unfold edkey_verify. cbn [pubBytes lift].
    rewrite (eddsa_correct _ _ _ Hs). eexists. reflexivity.
Qed.

End RoundTrip.
